(** * Podcast video generator: the web job service (app.py)

    A shallow embedding of the Flask application of app.py: the upload
    validation, the task registry, the background job that drives ffmpeg
    and parses its progress stream, and the status / download handlers.

    Conventions of the embedding.
    - Python [str] values are [string]s whose characters are read as the
      code points 0..255.
    - Python [int] is [Z]; Python [float] is an exact rational [Q] (the
      rounding of binary64 is not modelled, so a computed percentage may
      differ from the interpreter's by one unit at a truncation boundary;
      signs, order and the clamps are the same). Where the interpreter's
      arithmetic overflows, or [int()] refuses a literal for its length,
      the exception is swallowed by the loop and nothing is written; the
      embedding writes the clamped value there. No value of a written
      progress is stated beyond its bounds and its order.
    - A subprocess is one that ends: it closes its output and exits with a
      code. A subprocess that never exits, or that blocks on a pipe nobody
      reads, is outside the embedding.
    - The module-level dict [tasks] is a [gmap string Task]; the upload and
      output folders are a [gmap string string] from path to content.
    - What the operating system decides (the random bytes of uuid4, whether
      a subprocess starts, what it prints, its exit code) is an explicit
      argument. *)

From Stdlib Require Import ZArith QArith Ascii String List Sorted Lia Bool.
From stdpp Require Import gmap strings list fin_maps.

Local Open Scope Z_scope.

(** ** Python string operations used by app.py *)

Module PyStr.

(** [c in s] for a one-character needle. *)
Fixpoint contains_char (c : ascii) (s : string) : bool :=
  match s with
  | EmptyString => false
  | String a s' => if Ascii.eqb a c then true else contains_char c s'
  end.

(** [s.startswith(p)]. *)
Fixpoint startswith (p s : string) : bool :=
  match p, s with
  | EmptyString, _ => true
  | String a p', String b s' => if Ascii.eqb a b then startswith p' s' else false
  | String _ _, EmptyString => false
  end.

(** [p in s] for a string needle. *)
Fixpoint contains (p s : string) : bool :=
  if startswith p s then true
  else match s with
       | EmptyString => false
       | String _ s' => contains p s'
       end.

(** The text after the last occurrence of [c], when there is one. *)
Fixpoint after_last (c : ascii) (s : string) : option string :=
  match s with
  | EmptyString => None
  | String a s' =>
      match after_last c s' with
      | Some r => Some r
      | None => if Ascii.eqb a c then Some s' else None
      end
  end.

(** The text before the last occurrence of [c] (all of [s] without one). *)
Fixpoint before_last (c : ascii) (s : string) : string :=
  match s with
  | EmptyString => EmptyString
  | String a s' =>
      match after_last c s' with
      | Some _ => String a (before_last c s')
      | None => if Ascii.eqb a c then EmptyString else String a (before_last c s')
      end
  end.

(** [s.rsplit(c, 1)]: one or two fields. *)
Definition rsplit1 (c : ascii) (s : string) : list string :=
  match after_last c s with
  | Some r => [before_last c s; r]
  | None => [s]
  end.

(** [s.split(c)], auxiliary: [cur] is the field being read, reversed. *)
Fixpoint split_aux (c : ascii) (cur : list ascii) (s : string) : list string :=
  match s with
  | EmptyString => [string_of_list_ascii (rev cur)]
  | String a s' =>
      if Ascii.eqb a c
      then string_of_list_ascii (rev cur) :: split_aux c [] s'
      else split_aux c (a :: cur) s'
  end.

(** [s.split(c)] for a one-character separator. *)
Definition split (c : ascii) (s : string) : list string := split_aux c [] s.

(** [c.lower()] on the code points 0..255: A-Z, and the capital letters
    of the Latin-1 block (U+00C0..U+00DE without the multiplication sign). *)
Definition lower_char (a : ascii) : ascii :=
  let n := N_of_ascii a in
  if ((65 <=? n) && (n <=? 90))%N
     || ((192 <=? n) && (n <=? 222) && negb (n =? 215))%N
  then ascii_of_N (n + 32)
  else a.

(** [s.lower()]. *)
Fixpoint lower (s : string) : string :=
  match s with
  | EmptyString => EmptyString
  | String a s' => String (lower_char a) (lower s')
  end.

(** White space for [int()]: tab, line feed, vertical tab, form feed,
    carriage return, space and, in the range 128..255, NEL (133) and the
    no-break space (160). *)
Definition is_space (a : ascii) : bool :=
  let n := N_of_ascii a in
  ((9 <=? n) && (n <=? 13) || (n =? 32) || (n =? 133) || (n =? 160))%N.

(** White space for [str.strip()] ([str.isspace]): the same and the four
    separators 28..31. *)
Definition is_space_str (a : ascii) : bool :=
  let n := N_of_ascii a in
  is_space a || ((28 <=? n) && (n <=? 31))%N.

Fixpoint lstrip (sp : ascii -> bool) (l : list ascii) : list ascii :=
  match l with
  | a :: l' => if sp a then lstrip sp l' else l
  | [] => []
  end.

Definition strip_list (sp : ascii -> bool) (l : list ascii) : list ascii :=
  rev (lstrip sp (rev (lstrip sp l))).

(** [s.strip()]. *)
Definition strip (s : string) : string :=
  string_of_list_ascii (strip_list is_space_str (list_ascii_of_string s)).

Definition is_digit (a : ascii) : bool :=
  let n := N_of_ascii a in ((48 <=? n) && (n <=? 57))%N.

Definition digit_val (a : ascii) : Z := Z.of_N (N_of_ascii a) - 48.

(** The digits of a decimal literal, most significant first; a single
    underscore is allowed between two digits. [acc] is the value read so
    far and [prev_digit] tells whether the previous character was a digit. *)
Fixpoint digits_aux (acc : Z) (prev_digit : bool) (l : list ascii) : option Z :=
  match l with
  | [] => if prev_digit then Some acc else None
  | a :: l' =>
      if is_digit a then digits_aux (10 * acc + digit_val a) true l'
      else if Ascii.eqb a "_"%char
           then if prev_digit then digits_aux acc false l' else None
           else None
  end.

(** [int(s)] in base ten: [None] stands for ValueError. *)
Definition py_int (s : string) : option Z :=
  match strip_list is_space (list_ascii_of_string s) with
  | [] => None
  | a :: l =>
      if Ascii.eqb a "-"%char then Z.opp <$> digits_aux 0 false l
      else if Ascii.eqb a "+"%char then digits_aux 0 false l
      else digits_aux 0 false (a :: l)
  end.

End PyStr.

(** ** Configuration *)

Definition UPLOAD_FOLDER : string := "uploads".
Definition OUTPUT_FOLDER : string := "output".
Definition ALLOWED_AUDIO : gset string :=
  {[ "mp3"; "wav"; "m4a"; "aac"; "ogg"; "flac" ]}.
Definition ALLOWED_IMAGE : gset string :=
  {[ "jpg"; "jpeg"; "png"; "webp" ]}.

(** [folder / name] of pathlib, for a relative [name]. *)
Definition path_join (folder name : string) : string :=
  folder +:+ "/" +:+ name.

(** ** Upload validation *)

(** [allowed_audio(filename)]; the index [1] of the [rsplit] result exists
    whenever the first conjunct holds. *)
Definition allowed_audio (filename : string) : bool :=
  PyStr.contains_char "."%char filename
  && match PyStr.rsplit1 "."%char filename !! 1%nat with
     | Some ext => bool_decide (PyStr.lower ext ∈ ALLOWED_AUDIO)
     | None => false
     end.

(** [allowed_image(filename)]. *)
Definition allowed_image (filename : string) : bool :=
  PyStr.contains_char "."%char filename
  && match PyStr.rsplit1 "."%char filename !! 1%nat with
     | Some ext => bool_decide (PyStr.lower ext ∈ ALLOWED_IMAGE)
     | None => false
     end.

(** [has_extension_in S f]: the file name [f] ends in a dot followed by an
    extension (a text without a dot) that, in lower case, belongs to [S]. *)
Definition has_extension_in (S : gset string) (f : string) : Prop :=
  exists stem ext, f = stem +:+ "." +:+ ext
    /\ PyStr.contains_char "."%char ext = false
    /\ PyStr.lower ext ∈ S.

(** ** The task registry *)

Inductive Status := queued | processing | completed | failed.

(** One value of the dict [tasks]: the dict with the keys ['status'],
    ['progress'], ['output_file'] and ['error'] ([None] is Python's None). *)
Record Task := mkTask {
  status : Status;
  progress : Z;
  output_file : option string;
  error : option string
}.

Definition set_status (v : Status) (t : Task) : Task :=
  mkTask v (progress t) (output_file t) (error t).
Definition set_progress (v : Z) (t : Task) : Task :=
  mkTask (status t) v (output_file t) (error t).
Definition set_output_file (v : string) (t : Task) : Task :=
  mkTask (status t) (progress t) (Some v) (error t).
Definition set_error (v : string) (t : Task) : Task :=
  mkTask (status t) (progress t) (output_file t) (Some v).

Global Instance Status_eq_dec : EqDecision Status.
Proof. solve_decision. Defined.

(** The exceptions that reach the handlers of app.py. *)
Inductive py_exception :=
  | KeyError (key : string)
  | OSError (msg : string)
  | UnicodeDecodeError (msg : string)
  | TypeError (msg : string)
  | ValueError (msg : string)
  | IndexError (msg : string).

(** [str(e)]; the key of a KeyError is shown quoted. *)
Definition str_exception (e : py_exception) : string :=
  match e with
  | KeyError k => "'" +:+ k +:+ "'"
  | OSError m => m
  | UnicodeDecodeError m => m
  | TypeError m => m
  | ValueError m => m
  | IndexError m => m
  end.

(** ** Stateful code: the registry, its writes, and exceptions

    A computation runs from a registry and yields the registries produced
    by its successive item assignments (what a concurrent reader can see),
    the registry it leaves, and a value or the exception it raised. *)

Record Outcome (A : Type) := mkOutcome {
  writes : list (gmap string Task);
  final : gmap string Task;
  result : py_exception + A
}.
Arguments mkOutcome {A} _ _ _.
Arguments writes {A} _.
Arguments final {A} _.
Arguments result {A} _.

Definition Job (A : Type) : Type := gmap string Task -> Outcome A.

Definition ret {A} (a : A) : Job A := fun s => mkOutcome [] s (inr a).

Definition raise {A} (e : py_exception) : Job A := fun s => mkOutcome [] s (inl e).

Definition bind {A B} (m : Job A) (k : A -> Job B) : Job B := fun s =>
  let o := m s in
  match result o with
  | inl e => mkOutcome (writes o) (final o) (inl e)
  | inr a =>
      let o' := k a (final o) in
      mkOutcome (writes o ++ writes o') (final o') (result o')
  end.

(** [try: m except Exception as e: h e]. *)
Definition try_except {A} (m : Job A) (h : py_exception -> Job A) : Job A := fun s =>
  let o := m s in
  match result o with
  | inl e =>
      let o' := h e (final o) in
      mkOutcome (writes o ++ writes o') (final o') (result o')
  | inr _ => o
  end.

(** What the operating system answers: an exception or a value. *)
Definition lift {A} (r : py_exception + A) : Job A :=
  match r with inl e => raise e | inr a => ret a end.

Notation "'do' x <- c1 ; c2" := (bind c1 (fun x => c2))
  (at level 100, x name, c1 at next level, c2 at level 200, right associativity).
Notation "c1 ;; c2" := (bind c1 (fun _ => c2))
  (at level 100, c2 at level 200, right associativity).

(** [tasks[task_id][field] = v]: KeyError without the record. *)
Definition assign (task_id : string) (f : Task -> Task) : Job unit := fun s =>
  match s !! task_id with
  | Some t => let s' := <[task_id := f t]> s in mkOutcome [s'] s' (inr tt)
  | None => mkOutcome [] s (inl (KeyError task_id))
  end.

(** [for x in xs: body x]. *)
Fixpoint for_each {A} (xs : list A) (body : A -> Job unit) : Job unit :=
  match xs with
  | [] => ret tt
  | x :: xs' => body x ;; for_each xs' body
  end.

(** The registries a poller can observe while [m] runs from [s]. *)
Definition observable {A} (m : Job A) (s : gmap string Task) : list (gmap string Task) :=
  s :: writes (m s).

(** ** Progress arithmetic *)

(** [int(x)] of a float: truncation toward zero. *)
Definition py_trunc (x : Q) : Z := Z.quot (Qnum x) (Z.pos (Qden x)).

(** The value of [min(20 + int((time_sec / duration) * 70), 90)] with
    [time_sec = time_ms / 1000000], in exact arithmetic. *)
Definition progress_of (time_ms : Z) (duration : Q) : Z :=
  let time_sec := (inject_Z time_ms / inject_Z 1000000)%Q in
  Z.min (20 + py_trunc ((time_sec / duration) * inject_Z 70)%Q) 90.

(** [duration > 0]. *)
Definition gt0 (duration : Q) : bool :=
  match Qlt_le_dec 0 duration with left _ => true | right _ => false end.

(** The timestamp of a progress line: [int(line.split('=')[1])] when the
    line mentions [out_time_ms=] and the field reads as an integer. *)
Definition event_time (line : string) : option Z :=
  if PyStr.contains "out_time_ms=" line
  then match PyStr.split "="%char line !! 1%nat with
       | Some field => PyStr.py_int field
       | None => None
       end
  else None.

(** ** The subordinate processes *)

(** What a started ffmpeg process that ends yields: the lines of its
    progress channel, the error that ends the reading when there is one,
    its exit code, and what reading its error stream gives. *)
Record Process := mkProcess {
  stdout_lines : list string;
  stdout_error : option py_exception;
  returncode : Z;
  stderr_read : py_exception + string
}.

(** What the operating system answers to the two subprocess calls of one
    job: [subprocess.Popen] of ffmpeg, and [subprocess.run] of ffprobe with
    the text it captured on standard output. *)
Record Env := mkEnv {
  popen : py_exception + Process;
  ffprobe_run : py_exception + string
}.

(** [path.name]: the last component of a path. *)
Definition path_name (path : string) : string :=
  match PyStr.after_last "/"%char path with
  | Some n => n
  | None => path
  end.

(** [float()] on the plain decimal notation ffprobe prints (sign, digits,
    point, digits); it reads no exponent, infinity or NaN and serves to run
    the model on examples. *)
Definition float_plain (s : string) : option Q :=
  let l := PyStr.strip_list PyStr.is_space (list_ascii_of_string s) in
  let '(neg, body) :=
    match l with
    | a :: l' => if Ascii.eqb a "-"%char then (true, l')
                 else if Ascii.eqb a "+"%char then (false, l') else (false, l)
    | [] => (false, [])
    end in
  let whole := PyStr.before_last "."%char (string_of_list_ascii body) in
  let frac :=
    match PyStr.after_last "."%char (string_of_list_ascii body) with
    | Some f => f
    | None => EmptyString
    end in
  let read (t : string) : option Z :=
    match t with
    | EmptyString => Some 0
    | _ => PyStr.digits_aux 0 false (list_ascii_of_string t)
    end in
  if PyStr.contains_char "."%char whole then None
  else match whole, frac with
  | EmptyString, EmptyString => None
  | _, _ =>
      match read whole, read frac with
      | Some w, Some f =>
          let k := Z.of_nat (String.length (string_of_list_ascii
                     (List.filter PyStr.is_digit (list_ascii_of_string frac)))) in
          let v := (inject_Z w + inject_Z f / inject_Z (10 ^ k))%Q in
          Some (if neg then Qopp v else v)
      | _, _ => None
      end
  end.

(** ** The job runner *)

Section JobRunner.

(** [float(s)] for a text that denotes a finite number; [None] stands for
    ValueError. *)
Variable py_float : string -> option Q.

(** [get_audio_duration(audio_path)]: the call of ffprobe is outside the
    try block, the conversion inside. *)
Definition get_audio_duration (run : py_exception + string) : Job Q :=
  do out <- lift run ;
  ret (match py_float (PyStr.strip out) with
       | Some d => d
       | None => 0%Q
       end).

(** The body of the loop over [process.stdout]. *)
Definition on_line (duration : Q) (task_id : string) (line : string) : Job unit :=
  if PyStr.contains "out_time_ms=" line then
    try_except
      (do field <- lift (match PyStr.split "="%char line !! 1%nat with
                         | Some f => inr f
                         | None => inl (IndexError "list index out of range")
                         end) ;
       do time_ms <- lift (match PyStr.py_int field with
                           | Some n => inr n
                           | None => inl (ValueError "invalid literal for int()")
                           end) ;
       if gt0 duration
       then assign task_id (set_progress (progress_of time_ms duration))
       else ret tt)
      (fun _ => ret tt)
  else ret tt.

(** The loop over [process.stdout]: the lines, then the error that ends
    the reading, if any. *)
Definition read_progress (process : Process) (duration : Q) (task_id : string) : Job unit :=
  for_each (stdout_lines process) (on_line duration task_id) ;;
  match stdout_error process with
  | Some e => raise e
  | None => ret tt
  end.

(** The statements after [process.wait()]. *)
Definition finalize (process : Process) (output_path task_id : string) : Job bool :=
  if returncode process =? 0 then
    assign task_id (set_status completed) ;;
    assign task_id (set_progress 100) ;;
    assign task_id (set_output_file (path_name output_path)) ;;
    ret true
  else
    assign task_id (set_status failed) ;;
    (do err <- lift (stderr_read process) ;
     assign task_id (set_error err)) ;;
    ret false.

(** From [subprocess.Popen] to the end of [create_video_with_waveform]:
    the process is started, the duration probed, the progress read, the
    record finalized. *)
Definition drive_process (env : Env) (output_path task_id : string) : Job bool :=
  do process <- lift (popen env) ;
  do duration <- get_audio_duration (ffprobe_run env) ;
  read_progress process duration task_id ;;
  finalize process output_path task_id.

(** [create_video_with_waveform(cover_path, audio_path, output_path, task_id)];
    the command line is fixed by the three paths, and what the two
    subprocesses answer to it is [env]. *)
Definition create_video_with_waveform (env : Env)
    (cover_path audio_path output_path task_id : string) : Job bool :=
  assign task_id (set_status processing) ;;
  assign task_id (set_progress 10) ;;
  assign task_id (set_progress 20) ;;
  drive_process env output_path task_id.

(** [process_video_task(task_id, audio_path, cover_path, output_path)]. *)
Definition process_video_task (env : Env)
    (task_id audio_path cover_path output_path : string) : Job unit :=
  try_except
    (create_video_with_waveform env cover_path audio_path output_path task_id ;;
     ret tt)
    (fun e =>
       assign task_id (set_status failed) ;;
       assign task_id (set_error (str_exception e))).

End JobRunner.

(** ** Task identifiers: [str(uuid.uuid4())[:8]] *)

Module Uuid.

Definition hex_digit (n : N) : ascii :=
  match String.get (N.to_nat n) "0123456789abcdef" with
  | Some c => c
  | None => "0"%char
  end.

(** The [k] low hexadecimal digits of [n], most significant first, put in
    front of [acc]. *)
Fixpoint hex_aux (k : nat) (n : N) (acc : string) : string :=
  match k with
  | O => acc
  | S k' => hex_aux k' (n / 16)%N (String (hex_digit (n mod 16)%N) acc)
  end.

(** ['%032x' % n] for a 128-bit [n]. *)
Definition hex32 (n : N) : string := hex_aux 32 n EmptyString.

(** The integer of [uuid4()] from the integer of its 16 random bytes: the
    variant and the version bits are forced. *)
Definition uuid4 (random : N) : N :=
  let i := N.ldiff random (N.shiftl 0xc000 48) in
  let i := N.lor i (N.shiftl 0x8000 48) in
  let i := N.ldiff i (N.shiftl 0xf000 64) in
  N.lor i (N.shiftl 4 76).

(** [str(u)]: the groups of 8, 4, 4, 4 and 12 digits. *)
Definition str (u : N) : string :=
  let hex := hex32 u in
  substring 0 8 hex +:+ "-" +:+ substring 8 4 hex +:+ "-" +:+
  substring 12 4 hex +:+ "-" +:+ substring 16 4 hex +:+ "-" +:+
  substring 20 12 hex.

(** [int(c, 16)] for a lower-case hexadecimal digit. *)
Definition hex_value (c : ascii) : N :=
  match index 0 (String c EmptyString) "0123456789abcdef" with
  | Some i => N.of_nat i
  | None => 0%N
  end.

(** [int(s, 16)], continuing from [acc]. *)
Fixpoint unhex (s : string) (acc : N) : N :=
  match s with
  | EmptyString => acc
  | String c s' => unhex s' (16 * acc + hex_value c)%N
  end.

End Uuid.

(** The task id drawn for a submission. *)
Definition new_task_id (random : N) : string :=
  substring 0 8 (Uuid.str (Uuid.uuid4 random)).

(** The 32 leading bits of a 128-bit draw. *)
Definition leading32 (random : N) : N := ((random / 2 ^ 96) mod 2 ^ 32)%N.

(** ** The web handlers *)

(** An uploaded file of [request.files]. *)
Record FileStorage := mkFile {
  filename : string;
  content : string
}.

(** The multipart form: the fields [audio] and [cover] when present. *)
Record Request := mkRequest {
  audio : option FileStorage;
  cover : option FileStorage
}.

(** The arguments of one background thread. *)
Record JobArgs := mkJobArgs {
  job_task_id : string;
  job_audio_path : string;
  job_cover_path : string;
  job_output_path : string
}.

(** The process state the handlers work on: the dict [tasks], the files
    on disk by path, and the threads started so far. *)
Record World := mkWorld {
  tasks : gmap string Task;
  files : gmap string string;
  threads : list JobArgs
}.

Inductive Response :=
  | JsonError (code : Z) (msg : string)
  | JsonAccepted (task_id message : string)
  | JsonTask (t : Task)
  | SendFile (path : string) (as_attachment : bool) (download_name : string)
  | Uncaught (e : py_exception).

(** The HTTP status of a response; an uncaught exception is a 500. *)
Definition status_code (r : Response) : Z :=
  match r with
  | JsonError code _ => code
  | JsonAccepted _ _ => 200
  | JsonTask _ => 200
  | SendFile _ _ _ => 200
  | Uncaught _ => 500
  end.

Definition DEFAULT_COVER : string := path_join "static" "default_cover.jpg".

(** [file.save(path)]. *)
Definition save (path : string) (f : FileStorage) (w : World) : World :=
  mkWorld (tasks w) (<[path := content f]> (files w)) (threads w).

(** [path.exists()]. *)
Definition exists_ (path : string) (w : World) : bool :=
  bool_decide (is_Some (files w !! path)).

(** The condition [cover_file and cover_file.filename and
    allowed_image(cover_file.filename)]; a FileStorage is true when its
    file name is not empty. *)
Definition cover_accepted (cover_file : option FileStorage) : option FileStorage :=
  match cover_file with
  | Some c =>
      if negb (String.eqb (filename c) "") && negb (String.eqb (filename c) "")
         && allowed_image (filename c)
      then Some c else None
  | None => None
  end.

Section Handlers.

(** [werkzeug.utils.secure_filename]. *)
Variable secure_filename : string -> string.

(** The end of [upload_files]: the record is created and the thread
    started. *)
Definition start_task (task_id audio_path cover_path : string) (w : World)
    : World * Response :=
  let output_filename := task_id +:+ "_video.mp4" in
  let output_path := path_join OUTPUT_FOLDER output_filename in
  (mkWorld (<[task_id := mkTask queued 0 None None]> (tasks w))
           (files w)
           (threads w ++ [mkJobArgs task_id audio_path cover_path output_path]),
   JsonAccepted task_id "开始处理").

(** [upload_files()] for the request [req], [random] being the bytes that
    uuid4 draws. *)
Definition upload_files (random : N) (req : Request) (w : World) : World * Response :=
  match audio req with
  | None => (w, JsonError 400 "请上传音频文件")
  | Some audio_file =>
      let cover_file := cover req in
      if String.eqb (filename audio_file) "" then
        (w, JsonError 400 "请选择音频文件")
      else if negb (allowed_audio (filename audio_file)) then
        (w, JsonError 400 "不支持的音频格式")
      else
        let task_id := new_task_id random in
        let audio_filename := secure_filename (task_id +:+ "_" +:+ filename audio_file) in
        let audio_path := path_join UPLOAD_FOLDER audio_filename in
        let w := save audio_path audio_file w in
        match cover_accepted cover_file with
        | Some c =>
            let cover_filename := secure_filename (task_id +:+ "_" +:+ filename c) in
            let cover_path := path_join UPLOAD_FOLDER cover_filename in
            let w := save cover_path c w in
            start_task task_id audio_path cover_path w
        | None =>
            let default_cover := DEFAULT_COVER in
            if exists_ default_cover w then
              start_task task_id audio_path default_cover w
            else
              (w, JsonError 400 "请上传封面图片")
        end
  end.

(** [get_status(task_id)]. *)
Definition get_status (task_id : string) (w : World) : Response :=
  match tasks w !! task_id with
  | None => JsonError 404 "任务不存在"
  | Some task => JsonTask task
  end.

(** [download_video(task_id)]; joining the folder with None raises. *)
Definition download_video (task_id : string) (w : World) : Response :=
  match tasks w !! task_id with
  | None => JsonError 404 "任务不存在"
  | Some task =>
      if bool_decide (status task ≠ completed) then
        JsonError 400 "视频尚未完成"
      else
        match output_file task with
        | None => Uncaught (TypeError "unsupported operand type(s) for /")
        | Some name =>
            let output_file := path_join OUTPUT_FOLDER name in
            if negb (exists_ output_file w) then
              JsonError 404 "文件不存在"
            else
              SendFile output_file true name
        end
  end.

End Handlers.

(** ** Notions the properties are stated with *)

(** A line of a text stream: the text and its line feed. *)
Definition line (text : string) : string :=
  text +:+ String (ascii_of_nat 10) EmptyString.

(** The job [m] never removes the record of the task. *)
Definition keeps {A} (task_id : string) (m : Job A) : Prop :=
  forall s, is_Some (s !! task_id) -> is_Some (final (m s) !! task_id).

(** [ps] are the progress values of the task in the registries [obs]. *)
Definition polled (task_id : string) (obs : list (gmap string Task)) (ps : list Z) : Prop :=
  Forall2 (fun s p => progress <$> s !! task_id = Some p) obs ps.

(** Successive polls never see the progress of the task decrease. *)
Definition progress_monotone (task_id : string) (obs : list (gmap string Task)) : Prop :=
  exists ps, polled task_id obs ps /\ StronglySorted Z.le ps.

(** The timestamps of the progress events among [lines]. *)
Definition timestamps (lines : list string) : list Z := omap event_time lines.

(** [x] is a value the job [m] can return. *)
Definition result_of {A} (m : Job A) (x : A) : Prop :=
  exists s, result (m s) = inr x.

(** [rising task_id a b m]: run from a registry where the progress of the
    task is at most [a], the job [m] writes a non-decreasing sequence of
    progress values that continues the current one, and leaves a progress
    of at most [b], however it ends. *)
Definition rising {A} (task_id : string) (a b : Z) (m : Job A) : Prop :=
  forall s p, progress <$> s !! task_id = Some p -> p <= a ->
    exists ps, polled task_id (writes (m s)) ps
      /\ Sorted Z.le (p :: ps)
      /\ progress <$> final (m s) !! task_id = Some (List.last ps p)
      /\ List.last ps p <= b.

(** One submission: the bytes uuid4 draws for it, the request, and the
    state of the process when it is handled. *)
Record Submission := mkSubmission {
  sub_random : N;
  sub_request : Request;
  sub_world : World
}.

(** The submission is accepted and answered with [task_id]. *)
Definition accepted (secure_filename : string -> string)
    (sub : Submission) (task_id : string) : Prop :=
  exists msg,
    snd (upload_files secure_filename (sub_random sub) (sub_request sub) (sub_world sub))
    = JsonAccepted task_id msg.

(** The ids returned to accepted submissions are pairwise distinct. *)
Definition task_ids_unique (secure_filename : string -> string)
    (subs : list Submission) : Prop :=
  forall ids, Forall2 (accepted secure_filename) subs ids -> NoDup ids.

(** ** Sample inputs *)

(** A process with the default cover asset and no task. *)
Definition sample_world : World :=
  mkWorld ∅ {[ DEFAULT_COVER := "cover" ]} [].

(** A process without the default cover asset. *)
Definition bare_world : World := mkWorld ∅ ∅ [].

(** A file name that needs no cleaning is left as it is. *)
Definition keep_name (name : string) : string := name.

(** The registry right after the submission of task 12345678. *)
Definition fresh_registry : gmap string Task :=
  {[ "12345678" := mkTask queued 0 None None ]}.


(** ffmpeg reports 2 s then 4 s and exits with 0. *)
Definition steady_process : Process :=
  mkProcess [line "frame=60"; line "out_time_ms=2000000";
             line "progress=continue"; line "out_time_ms=4000000";
             line "progress=end"] None 0 (inr "").

(** ffmpeg reports 4 s then 2 s and exits with 0. *)
Definition backward_process : Process :=
  mkProcess [line "out_time_ms=4000000"; line "out_time_ms=2000000"]
            None 0 (inr "").

(** ffmpeg reports 4 s and fails. *)
Definition failing_process : Process :=
  mkProcess [line "out_time_ms=4000000"] None 1 (inr "Conversion failed!").

(** The track lasts 8 s. *)
Definition steady_env : Env := mkEnv (inr steady_process) (inr (line "8.000000")).

Definition backward_env : Env := mkEnv (inr backward_process) (inr (line "8.000000")).

(** ffprobe prints no number. *)
Definition unknown_env : Env := mkEnv (inr failing_process) (inr (line "N/A")).

(** ffmpeg cannot be started. *)
Definition broken_env : Env :=
  mkEnv (inl (OSError "[Errno 2] No such file or directory: 'ffmpeg'"))
        (inr (line "8.000000")).

(** The paths of the job of task 12345678. *)
Definition sample_audio_path : string := path_join UPLOAD_FOLDER "12345678_a.mp3".
Definition sample_output_path : string := path_join OUTPUT_FOLDER "12345678_video.mp4".

(** A process where task 12345678 is completed and its video on disk. *)
Definition finished_world : World :=
  mkWorld {[ "12345678" := mkTask completed 100 (Some "12345678_video.mp4") None ]}
          {[ sample_output_path := "video" ]} [].

(** Two submissions handled one after the other whose UUIDs differ and
    share their first eight digits. *)
Definition first_submission : Submission :=
  mkSubmission 0x12345678aaaaaaaaaaaaaaaaaaaaaaaa
    (mkRequest (Some (mkFile "a.mp3" "A")) None) sample_world.

Definition second_submission : Submission :=
  mkSubmission 0x12345678bbbbbbbbbbbbbbbbbbbbbbbb
    (mkRequest (Some (mkFile "b.mp3" "B")) None)
    (fst (upload_files keep_name (sub_random first_submission)
            (sub_request first_submission) (sub_world first_submission))).

(** A later submission with other leading digits. *)
Definition third_submission : Submission :=
  mkSubmission 0x9abcdef0cccccccccccccccccccccccc
    (mkRequest (Some (mkFile "c.wav" "C")) (Some (mkFile "c.png" "P")))
    sample_world.

(** ** The capability probe *)

(** What [subprocess.run] gives back: the exit code and the captured
    standard output. *)
Record CompletedProcess := mkCompleted {
  cp_returncode : Z;
  cp_stdout : string
}.

(** The JSON body of [check_ffmpeg]: [{'available': True, 'version': v}] or
    [{'available': False}]. *)
Inductive FfmpegCheck :=
  | Available (version : string)
  | NotAvailable.

(** [check_ffmpeg()] of app.py, [run] being what running [ffmpeg -version]
    gives; every exception inside the try block falls through to the last
    return. *)
Definition check_ffmpeg (run : py_exception + CompletedProcess) : FfmpegCheck :=
  match run with
  | inr result =>
      if cp_returncode result =? 0 then
        match PyStr.split (ascii_of_nat 10) (cp_stdout result) !! 0%nat with
        | Some version => Available version
        | None => NotAvailable
        end
      else NotAvailable
  | inl _ => NotAvailable
  end.

(** ** Invariants of a job *)

(** The registries [m] writes and leaves all satisfy [P] when the one it
    starts from does. *)
Definition maintains {A} (P : gmap string Task -> Prop) (m : Job A) : Prop :=
  forall s, P s -> Forall P (writes (m s)) /\ P (final (m s)).

(** The field updates a job performs on the record of its task: a status,
    a progress of at most 100, an output file name, an error text. *)
Inductive JobUpdate : (Task -> Task) -> Prop :=
  | upd_status v : JobUpdate (set_status v)
  | upd_progress v : v <= 100 -> JobUpdate (set_progress v)
  | upd_output_file v : JobUpdate (set_output_file v)
  | upd_error v : JobUpdate (set_error v).

(** [P] survives every update of a job on the record of [task_id]. *)
Definition stable (task_id : string) (P : gmap string Task -> Prop) : Prop :=
  forall f s t, JobUpdate f -> P s -> s !! task_id = Some t ->
    P (<[task_id := f t]> s).

(** * The batch tool (main.py)

    The command-line variant works on the folders [input/audio] and
    [input/cover]; a folder is the list of its entry names in the order
    the operating system lists them, and an argument naming a file is an
    entry name (no separator). What the console shows is not modelled:
    the calls of [print] are taken to succeed and are left out. *)

Module Cli.

Definition INPUT_AUDIO : string := path_join "input" "audio".
Definition INPUT_COVER : string := path_join "input" "cover".
Definition OUTPUT_FINAL : string := path_join "output" "final".
Definition OUTPUT_TEMP : string := path_join "output" "temp".

(** The entries of the two input folders. *)
Record Disk := mkDisk {
  audio_dir : list string;
  cover_dir : list string
}.

(** What [subprocess.run(cmd, capture_output=True)] gives back: the exit
    code, and what decoding the captured error stream gives. *)
Record RunResult := mkRun {
  rr_returncode : Z;
  rr_stderr : py_exception + string
}.

(** What the operating system answers to the subprocess calls, by their
    path arguments: the cover pass (cover, output), the video pass (cover,
    audio, output) and ffprobe (audio), the last with its captured standard
    output. *)
Record Tools := mkTools {
  run_blur : string -> string -> py_exception + RunResult;
  run_video : string -> string -> string -> py_exception + RunResult;
  run_probe : string -> py_exception + string
}.

(** [s.endswith(suffix)]. *)
Fixpoint endswith (suffix s : string) : bool :=
  String.eqb s suffix
  || match s with
     | EmptyString => false
     | String _ s' => endswith suffix s'
     end.

(** [folder.glob("*" + suffix)] on the entries of the folder: the names
    that end with [suffix], in listing order. *)
Definition glob (suffix : string) (entries : list string) : list string :=
  List.filter (endswith suffix) entries.

(** [path.exists()] for an entry name of a folder. *)
Definition present (name : string) (entries : list string) : bool :=
  bool_decide (name ∈ entries).

(** [path.stem] of an entry name: the name without its last suffix, a
    suffix being a dot that is neither the first nor the last character
    and what follows it. *)
Definition stem (name : string) : string :=
  match PyStr.after_last "."%char name with
  | Some rest =>
      let before := PyStr.before_last "."%char name in
      if negb (String.eqb before "") && negb (String.eqb rest "")
      then before else name
  | None => name
  end.

(** [e1 >>= k] on results that may be an exception. *)
Definition and_then {A B} (r : py_exception + A) (k : A -> py_exception + B)
    : py_exception + B :=
  match r with
  | inl e => inl e
  | inr a => k a
  end.

(** The end shared by [process_cover_blur] and [create_video_with_waveform]:
    a non-zero exit code prints the decoded error stream and gives False. *)
Definition run_ok (run : py_exception + RunResult) : py_exception + bool :=
  and_then run (fun result =>
    if negb (rr_returncode result =? 0) then
      and_then (rr_stderr result) (fun _ => inr false)
    else inr true).

(** [process_cover_blur(cover_path, output_path)]. *)
Definition process_cover_blur (tools : Tools) (cover_path output_path : string)
    : py_exception + bool :=
  run_ok (run_blur tools cover_path output_path).

(** [create_video_with_waveform(cover_path, audio_path, output_path)]. *)
Definition create_video_with_waveform (tools : Tools)
    (cover_path audio_path output_path : string) : py_exception + bool :=
  run_ok (run_video tools cover_path audio_path output_path).

Section Batch.

Variable py_float : string -> option Q.

(** [get_audio_duration(audio_path)] of main.py: the conversion is not
    guarded. *)
Definition get_audio_duration (tools : Tools) (audio_path : string)
    : py_exception + Q :=
  and_then (run_probe tools audio_path) (fun out =>
    match py_float (PyStr.strip out) with
    | Some d => inr d
    | None => inl (ValueError "could not convert string to float")
    end).

(** The choice of the cover in [process_podcast]: the given name, else the
    first of stem.jpg, stem.jpeg, stem.png that exists, else the first
    *.jpg, else the first *.png; [None] when there is none. *)
Definition select_cover (disk : Disk) (audio_file : string)
    (cover_file : option string) : option string :=
  let cover_file :=
    match cover_file with
    | None =>
        let audio_stem := stem audio_file in
        match List.find (fun ext => present (audio_stem +:+ ext) (cover_dir disk))
                        [".jpg"; ".jpeg"; ".png"] with
        | Some ext => Some (audio_stem +:+ ext)
        | None => None
        end
    | Some c => Some c
    end in
  match cover_file with
  | None =>
      let covers := glob ".jpg" (cover_dir disk) ++ glob ".png" (cover_dir disk) in
      match covers with
      | c :: _ => Some c
      | [] => None
      end
  | Some c => Some c
  end.

(** [process_podcast(audio_file, cover_file)]. *)
Definition process_podcast (disk : Disk) (tools : Tools)
    (audio_file : string) (cover_file : option string) : py_exception + bool :=
  let audio_path := path_join INPUT_AUDIO audio_file in
  if negb (present audio_file (audio_dir disk)) then inr false
  else
    match select_cover disk audio_file cover_file with
    | None => inr false
    | Some cover_file =>
        let cover_path := path_join INPUT_COVER cover_file in
        if negb (present cover_file (cover_dir disk)) then inr false
        else
          let processed_cover :=
            path_join OUTPUT_TEMP ("cover_9x16_" +:+ stem cover_file +:+ ".jpg") in
          and_then (process_cover_blur tools cover_path processed_cover) (fun blurred =>
            if negb blurred then inr false
            else
              let output_video :=
                path_join OUTPUT_FINAL (stem audio_file +:+ "_video.mp4") in
              and_then (create_video_with_waveform tools processed_cover
                          audio_path output_video) (fun created =>
                if negb created then inr false
                else
                  and_then (get_audio_duration tools audio_path) (fun _ =>
                    inr true)))
    end.

(** What [batch_process] reports: no audio file, or how many of the files
    succeeded. *)
Inductive BatchReport :=
  | NoAudio
  | Processed (success total : nat).

(** The loop of [batch_process]: the count of successes, or the exception
    that ends it. *)
Fixpoint batch_loop (disk : Disk) (tools : Tools) (audio_files : list string)
    (success : nat) : py_exception + nat :=
  match audio_files with
  | [] => inr success
  | name :: rest =>
      and_then (process_podcast disk tools name None) (fun ok =>
        batch_loop disk tools rest (if ok then S success else success))
  end.

(** [batch_process()]. *)
Definition batch_process (disk : Disk) (tools : Tools) : py_exception + BatchReport :=
  let audio_files :=
    glob ".mp3" (audio_dir disk) ++ glob ".wav" (audio_dir disk)
    ++ glob ".m4a" (audio_dir disk) in
  match audio_files with
  | [] => inr NoAudio
  | _ =>
      and_then (batch_loop disk tools audio_files 0) (fun success =>
        inr (Processed success (length audio_files)))
  end.

End Batch.

End Cli.

(** ** Sample inputs for the further properties *)

(** A registry with a second, finished task. *)
Definition shared_registry : gmap string Task :=
  <["0badc0de" := mkTask completed 100 (Some "0badc0de_video.mp4") None]> fresh_registry.

(** The disk once ffmpeg has written the video of task 12345678. *)
Definition sample_disk_files : gmap string string :=
  {[ sample_output_path := "video" ]}.

(** Folders of the batch tool: three episodes, one cover. *)
Definition sample_folders : Cli.Disk :=
  Cli.mkDisk ["ep1.mp3"; "ep2.mp3"; "ep3.mp3"; "notes.txt"] ["cover.jpg"].

(** Tools that succeed; ffprobe prints no number for the second episode. *)
Definition sample_tools : Cli.Tools :=
  Cli.mkTools
    (fun _ _ => inr (Cli.mkRun 0 (inr "")))
    (fun _ _ _ => inr (Cli.mkRun 0 (inr "")))
    (fun audio_path =>
       if String.eqb audio_path (path_join Cli.INPUT_AUDIO "ep2.mp3")
       then inr (line "N/A") else inr (line "12.500000")).

(** ffmpeg runs as in the steady run, and ffprobe cannot be run. *)
Definition probe_broken_env : Env :=
  mkEnv (inr steady_process)
        (inl (OSError "[Errno 2] No such file or directory: 'ffprobe'")).

(** The registry the steady run writes at line 131: the task is completed,
    its output file not yet recorded. *)
Definition window_registry : gmap string Task :=
  {[ "12345678" := mkTask completed 55 None None ]}.

(** * Properties *)

(** ** The operations on sample values *)

Example allowed_audio_upper : allowed_audio "Talk.Final.MP3" = true.
Proof. vm_compute. reflexivity. Qed.

Example allowed_audio_txt : allowed_audio "notes.txt" = false.
Proof. vm_compute. reflexivity. Qed.

Example allowed_audio_nodot : allowed_audio "mp3" = false.
Proof. vm_compute. reflexivity. Qed.

Example py_int_line : PyStr.py_int (line "  -1_000") = Some (-1000).
Proof. vm_compute. reflexivity. Qed.

Example py_int_bad : PyStr.py_int "N/A" = None.
Proof. vm_compute. reflexivity. Qed.

Example split_eq : PyStr.split "="%char "out_time_ms=12=3" = ["out_time_ms"; "12"; "3"].
Proof. vm_compute. reflexivity. Qed.

Example event_time_ok : event_time (line "out_time_ms=4000000") = Some 4000000.
Proof. vm_compute. reflexivity. Qed.

Example event_time_na : event_time (line "out_time_ms=N/A") = None.
Proof. vm_compute. reflexivity. Qed.

Example event_time_other : event_time (line "out_time=00:00:04.000000") = None.
Proof. vm_compute. reflexivity. Qed.

Example progress_of_half : progress_of 4000000 8 = 55.
Proof. vm_compute. reflexivity. Qed.

Example float_plain_ffprobe : option_map Qred (float_plain (line "12.500000")) = Some (25 # 2)%Q.
Proof. vm_compute. reflexivity. Qed.

Example float_plain_na : float_plain (line "N/A") = None.
Proof. vm_compute. reflexivity. Qed.

Example str_example :
  Uuid.str (Uuid.uuid4 0x12345678aaaaaaaaaaaaaaaaaaaaaaaa) = "12345678-aaaa-4aaa-aaaa-aaaaaaaaaaaa".
Proof. vm_compute. reflexivity. Qed.

(** ** File names and extensions *)

Lemma contains_char_after_last c s :
  PyStr.contains_char c s = true <-> is_Some (PyStr.after_last c s).
Proof.
  induction s as [|a s IH]; simpl.
  - split; [discriminate | intros [x Hx]; discriminate].
  - destruct (PyStr.after_last c s) as [r|] eqn:Hr.
    + destruct (Ascii.eqb a c); split; eauto.
      intros _. apply IH. eauto.
    + destruct (Ascii.eqb a c); split; eauto.
      * intros H. apply IH in H. destruct H; discriminate.
      * intros [x Hx]. discriminate.
Qed.

(** The text after the last [c] is the suffix that follows an occurrence
    of [c] and holds no other. *)
Lemma after_last_spec c s r :
  PyStr.after_last c s = Some r <->
  exists b, s = b +:+ String c r /\ PyStr.contains_char c r = false.
Proof.
  revert r. induction s as [|a s IH]; intros r; simpl.
  - split; [discriminate |].
    intros [b [Hb _]]. destruct b; discriminate.
  - destruct (PyStr.after_last c s) as [r'|] eqn:Hr.
    + split.
      * intros [= ->]. destruct (proj1 (IH r) eq_refl) as [b [-> Hn]].
        exists (String a b). split; [reflexivity | assumption].
      * intros [b [Hb Hn]]. destruct b as [|a' b]; simpl in Hb.
        -- injection Hb as -> ->.
           assert (Hc : PyStr.contains_char c r = true).
           { apply contains_char_after_last. eauto. }
           congruence.
        -- injection Hb as -> ->. f_equal.
           assert (Hs : Some r' = Some r); [| congruence].
           apply IH. eauto.
    + destruct (Ascii.eqb a c) eqn:Hac.
      * apply Ascii.eqb_eq in Hac as ->. split.
        -- intros [= <-]. exists EmptyString. split; [reflexivity |].
           destruct (PyStr.contains_char c s) eqn:Hc; [| reflexivity].
           apply contains_char_after_last in Hc. destruct Hc; congruence.
        -- intros [b [Hb Hn]]. destruct b as [|a' b]; simpl in Hb.
           ++ injection Hb as ->. reflexivity.
           ++ injection Hb as -> ->.
              assert (Hs : None = Some r); [| discriminate].
              apply IH. eauto.
      * split; [discriminate |].
        intros [b [Hb Hn]]. destruct b as [|a' b]; simpl in Hb.
        -- injection Hb as -> ->. rewrite Ascii.eqb_refl in Hac. discriminate.
        -- injection Hb as -> ->.
           assert (Hs : None = Some r); [| discriminate].
           apply IH. eauto.
Qed.

Lemma allowed_ext_spec (S : gset string) f :
  PyStr.contains_char "."%char f
  && match PyStr.rsplit1 "."%char f !! 1%nat with
     | Some ext => bool_decide (PyStr.lower ext ∈ S)
     | None => false
     end = true <->
  has_extension_in S f.
Proof.
  unfold has_extension_in, PyStr.rsplit1.
  destruct (PyStr.after_last "."%char f) as [r|] eqn:Hr; simpl.
  - assert (Hc : PyStr.contains_char "."%char f = true).
    { apply contains_char_after_last. eauto. }
    rewrite Hc. simpl. rewrite bool_decide_eq_true.
    apply after_last_spec in Hr as [b [-> Hn]]. split.
    + intros H. exists b, r. auto.
    + intros [stem [ext [Heq [Hn' Hin]]]].
      assert (Hs : Some r = Some ext); [| congruence].
      transitivity (PyStr.after_last "."%char (b +:+ String "."%char r)).
      * symmetry. apply after_last_spec. eauto.
      * apply after_last_spec. eauto.
  - rewrite andb_false_r. split; [discriminate |].
    intros [stem [ext [Heq [Hn' Hin]]]].
    assert (Hs : None = Some ext); [| discriminate].
    rewrite <- Hr. apply after_last_spec. eauto.
Qed.

Lemma allowed_audio_spec f :
  allowed_audio f = true <-> has_extension_in ALLOWED_AUDIO f.
Proof. apply allowed_ext_spec. Qed.

Lemma allowed_image_spec f :
  allowed_image f = true <-> has_extension_in ALLOWED_IMAGE f.
Proof. apply allowed_ext_spec. Qed.

Lemma allowed_audio_false f :
  ~ has_extension_in ALLOWED_AUDIO f -> allowed_audio f = false.
Proof.
  intros H. destruct (allowed_audio f) eqn:E; [| reflexivity].
  apply allowed_audio_spec in E. contradiction.
Qed.

Lemma allowed_image_false f :
  ~ has_extension_in ALLOWED_IMAGE f -> allowed_image f = false.
Proof.
  intros H. destruct (allowed_image f) eqn:E; [| reflexivity].
  apply allowed_image_spec in E. contradiction.
Qed.

Lemma has_extension_nonempty S f : has_extension_in S f -> f <> EmptyString.
Proof.
  intros [stem [ext [-> _]]]. destruct stem; discriminate.
Qed.

(** ** Submission *)

Lemma eqb_empty_false (f : string) : f <> EmptyString -> String.eqb f "" = false.
Proof. intros H. apply String.eqb_neq. exact H. Qed.

(** A cover is taken exactly when it is supplied with an allowed
    extension. *)
Lemma cover_accepted_Some c :
  has_extension_in ALLOWED_IMAGE (filename c) -> cover_accepted (Some c) = Some c.
Proof.
  intros H. unfold cover_accepted.
  rewrite (eqb_empty_false _ (has_extension_nonempty _ _ H)).
  rewrite (proj2 (allowed_image_spec _) H). reflexivity.
Qed.

Lemma cover_accepted_None cover_file :
  cover_file = None
  \/ (exists c, cover_file = Some c /\ ~ has_extension_in ALLOWED_IMAGE (filename c)) ->
  cover_accepted cover_file = None.
Proof.
  intros [-> | [c [-> H]]]; [reflexivity |].
  unfold cover_accepted. rewrite (allowed_image_false _ H).
  rewrite andb_false_r. reflexivity.
Qed.

(** Saving an upload never creates the default cover asset. *)
Lemma exists_default_after_save name f w :
  exists_ DEFAULT_COVER (save (path_join UPLOAD_FOLDER name) f w)
  = exists_ DEFAULT_COVER w.
Proof.
  unfold exists_, save. simpl.
  rewrite lookup_insert_ne; [reflexivity |]. discriminate.
Qed.

Section Submission.

Variable secure_filename : string -> string.

(** C5. A submission without an audio part, with an empty audio file name,
    or with an audio name whose extension (compared in lower case) is not
    one of mp3, wav, m4a, aac, ogg, flac is answered 400, and nothing is
    changed: no record enters the registry, no file is stored, no thread is
    started. *)
Theorem invalid_audio_rejected (random : N) (req : Request) (w : World) :
  audio req = None
  \/ (exists a, audio req = Some a
        /\ (filename a = EmptyString
            \/ ~ has_extension_in ALLOWED_AUDIO (filename a))) ->
  exists msg,
    upload_files secure_filename random req w = (w, JsonError 400 msg)
    /\ tasks (fst (upload_files secure_filename random req w)) = tasks w.
Proof.
  intros [Hnone | [a [Ha [Hempty | Hext]]]]; unfold upload_files.
  - rewrite Hnone. eexists. split; reflexivity.
  - rewrite Ha, Hempty. simpl. eexists. split; reflexivity.
  - rewrite Ha. destruct (String.eqb (filename a) "").
    + eexists. split; reflexivity.
    + rewrite (allowed_audio_false _ Hext). simpl. eexists. split; reflexivity.
Qed.

(** An accepted submission has put the fresh record of its task in the
    registry and started the thread of that task. *)
Lemma accepted_creates_record (random : N) (req : Request) (w w' : World)
    (task_id msg : string) :
  upload_files secure_filename random req w = (w', JsonAccepted task_id msg) ->
  tasks w' !! task_id = Some (mkTask queued 0 None None)
  /\ exists job, threads w' = threads w ++ [job] /\ job_task_id job = task_id.
Proof.
  unfold upload_files, start_task. intros H.
  destruct (audio req) as [a|]; [| discriminate].
  destruct (String.eqb (filename a) ""); [discriminate |].
  destruct (negb (allowed_audio (filename a))); [discriminate |].
  destruct (cover_accepted (cover req)).
  - injection H as <- <- _. simpl. split; [apply lookup_insert_eq |].
    eexists. split; reflexivity.
  - destruct (exists_ DEFAULT_COVER _); [| discriminate].
    injection H as <- <- _. simpl. split; [apply lookup_insert_eq |].
    eexists. split; reflexivity.
Qed.

(** C6. For a submission that passed the audio checks: a cover supplied
    with an extension among jpg, jpeg, png, webp is stored under its
    task-id name and handed to the job; in every other case the default
    cover asset is handed to the job when it exists, and the answer is 400
    when it does not. *)
Theorem cover_selection (random : N) (req : Request) (w : World) (a : FileStorage) :
  audio req = Some a ->
  has_extension_in ALLOWED_AUDIO (filename a) ->
  let task_id := new_task_id random in
  let audio_path :=
    path_join UPLOAD_FOLDER (secure_filename (task_id +:+ "_" +:+ filename a)) in
  let output_path := path_join OUTPUT_FOLDER (task_id +:+ "_video.mp4") in
  let w' := fst (upload_files secure_filename random req w) in
  let r := snd (upload_files secure_filename random req w) in
  (forall c, cover req = Some c ->
     has_extension_in ALLOWED_IMAGE (filename c) ->
     let cover_path :=
       path_join UPLOAD_FOLDER (secure_filename (task_id +:+ "_" +:+ filename c)) in
     files w' !! cover_path = Some (content c)
     /\ threads w' = threads w ++ [mkJobArgs task_id audio_path cover_path output_path]
     /\ exists msg, r = JsonAccepted task_id msg)
  /\ (cover req = None
      \/ (exists c, cover req = Some c
            /\ ~ has_extension_in ALLOWED_IMAGE (filename c)) ->
      (is_Some (files w !! DEFAULT_COVER) ->
         threads w' = threads w ++ [mkJobArgs task_id audio_path DEFAULT_COVER output_path]
         /\ exists msg, r = JsonAccepted task_id msg)
      /\ (files w !! DEFAULT_COVER = None ->
         exists msg, r = JsonError 400 msg)).
Proof.
  intros Ha Hext task_id audio_path output_path w' r.
  subst w' r. unfold upload_files. rewrite Ha.
  rewrite (eqb_empty_false _ (has_extension_nonempty _ _ Hext)).
  rewrite (proj2 (allowed_audio_spec _) Hext). simpl.
  fold task_id. fold audio_path. split.
  - intros c Hc Himg. rewrite Hc, (cover_accepted_Some _ Himg).
    simpl. fold output_path. split; [| split].
    + apply lookup_insert_eq.
    + reflexivity.
    + eexists. reflexivity.
  - intros Hno. rewrite (cover_accepted_None _ Hno).
    unfold audio_path. rewrite exists_default_after_save.
    fold audio_path. unfold exists_. split.
    + intros Hdef. rewrite bool_decide_eq_true_2 by exact Hdef.
      simpl. fold output_path. split; [reflexivity | eexists; reflexivity].
    + intros Hdef. rewrite bool_decide_eq_false_2.
      * simpl. eexists. reflexivity.
      * rewrite Hdef. intros [x Hx]. discriminate.
Qed.

(** C10. A submission with a valid audio file that is refused for want of
    a cover (none accepted, no default asset) has already stored the audio
    under its task-id name; the registry and the threads are as before. *)
Theorem audio_saved_before_cover_rejection
    (random : N) (req : Request) (w : World) (a : FileStorage) :
  audio req = Some a ->
  has_extension_in ALLOWED_AUDIO (filename a) ->
  cover req = None
  \/ (exists c, cover req = Some c
        /\ ~ has_extension_in ALLOWED_IMAGE (filename c)) ->
  files w !! DEFAULT_COVER = None ->
  let task_id := new_task_id random in
  let audio_path :=
    path_join UPLOAD_FOLDER (secure_filename (task_id +:+ "_" +:+ filename a)) in
  let w' := fst (upload_files secure_filename random req w) in
  (exists msg, snd (upload_files secure_filename random req w) = JsonError 400 msg)
  /\ files w' = <[audio_path := content a]> (files w)
  /\ files w' !! audio_path = Some (content a)
  /\ tasks w' = tasks w
  /\ threads w' = threads w.
Proof.
  intros Ha Hext Hno Hdef task_id audio_path w'.
  subst w'. unfold upload_files. rewrite Ha.
  rewrite (eqb_empty_false _ (has_extension_nonempty _ _ Hext)).
  rewrite (proj2 (allowed_audio_spec _) Hext). simpl.
  fold task_id. fold audio_path.
  rewrite (cover_accepted_None _ Hno).
  unfold audio_path. rewrite exists_default_after_save. fold audio_path.
  unfold exists_. rewrite bool_decide_eq_false_2.
  - simpl. split; [eexists; reflexivity |].
    split; [reflexivity |]. split; [apply lookup_insert_eq |]. split; reflexivity.
  - rewrite Hdef. intros [x Hx]. discriminate.
Qed.

End Submission.

(** ** Download *)

(** X20. A download of an unknown task id is answered 404; of a known task
    whose status is not completed, 400; of a completed task whose record
    carries an output file name that is not on disk, 404; of a completed
    task whose record carries the name of a file on disk, the file, sent as
    an attachment named after the stored output file name. *)
Theorem download_cases (task_id : string) (w : World) :
  (tasks w !! task_id = None ->
     status_code (download_video task_id w) = 404)
  /\ (forall t, tasks w !! task_id = Some t -> status t <> completed ->
        status_code (download_video task_id w) = 400)
  /\ (forall t name, tasks w !! task_id = Some t -> status t = completed ->
        output_file t = Some name ->
        files w !! path_join OUTPUT_FOLDER name = None ->
        status_code (download_video task_id w) = 404)
  /\ (forall t name, tasks w !! task_id = Some t -> status t = completed ->
        output_file t = Some name ->
        is_Some (files w !! path_join OUTPUT_FOLDER name) ->
        download_video task_id w = SendFile (path_join OUTPUT_FOLDER name) true name).
Proof.
  unfold download_video. repeat split.
  - intros ->. reflexivity.
  - intros t -> Hs. rewrite bool_decide_eq_true_2 by exact Hs. reflexivity.
  - intros t name -> Hs Ho Hf.
    rewrite bool_decide_eq_false_2 by (intros H; apply H; exact Hs).
    rewrite Ho. unfold exists_. rewrite bool_decide_eq_false_2; [reflexivity |].
    rewrite Hf. intros [x Hx]. discriminate.
  - intros t name -> Hs Ho Hf.
    rewrite bool_decide_eq_false_2 by (intros H; apply H; exact Hs).
    rewrite Ho. unfold exists_. rewrite bool_decide_eq_true_2 by exact Hf.
    reflexivity.
Qed.

(** ** Task identifiers *)

Module UuidFacts.
Import Uuid.

Lemma append_cons c (x y : string) : String c x +:+ y = String c (x +:+ y).
Proof. reflexivity. Qed.

Lemma append_assoc (x y z : string) : (x +:+ y) +:+ z = x +:+ (y +:+ z).
Proof.
  induction x as [|c x IH]; [reflexivity |].
  rewrite !append_cons, IH. reflexivity.
Qed.

Lemma append_nil_r (x : string) : x +:+ EmptyString = x.
Proof.
  induction x as [|c x IH]; [reflexivity |].
  rewrite append_cons, IH. reflexivity.
Qed.

Lemma length_append (x y : string) :
  String.length (x +:+ y) = (String.length x + String.length y)%nat.
Proof.
  induction x as [|c x IH]; [reflexivity |].
  rewrite append_cons. simpl. rewrite IH. reflexivity.
Qed.

Lemma hex_aux_acc k : forall n acc,
  hex_aux k n acc = hex_aux k n EmptyString +:+ acc.
Proof.
  induction k as [|k IH]; intros n acc; simpl; [reflexivity |].
  rewrite (IH _ (String _ acc)), (IH _ (String _ EmptyString)).
  rewrite append_assoc. reflexivity.
Qed.

Lemma hex_aux_S k n :
  hex_aux (S k) n EmptyString
  = hex_aux k (n / 16)%N EmptyString +:+ String (hex_digit (n mod 16)%N) EmptyString.
Proof. simpl. apply hex_aux_acc. Qed.

Lemma hex_aux_length k : forall n, String.length (hex_aux k n EmptyString) = k.
Proof.
  induction k as [|k IH]; intros n; [reflexivity |].
  rewrite hex_aux_S, length_append, IH. simpl. lia.
Qed.

(** The [a + b] digits of [n] are the [a] digits of [n / 16^b] followed by
    the [b] low digits of [n]. *)
Lemma hex_aux_add a b : forall n,
  hex_aux (a + b) n EmptyString
  = hex_aux a (n / 16 ^ N.of_nat b)%N EmptyString +:+ hex_aux b n EmptyString.
Proof.
  induction b as [|b IH]; intros n.
  - rewrite Nat.add_0_r. simpl. rewrite N.div_1_r, append_nil_r. reflexivity.
  - replace (a + S b)%nat with (S (a + b)) by lia.
    rewrite !hex_aux_S, IH, append_assoc.
    do 2 f_equal. rewrite Nat2N.inj_succ, N.pow_succ_r'.
    rewrite N.Div0.div_div. reflexivity.
Qed.

Lemma substring_prefix (x y : string) :
  substring 0 (String.length x) (x +:+ y) = x.
Proof.
  induction x as [|c x IH].
  - destruct y; reflexivity.
  - rewrite append_cons. simpl. rewrite IH. reflexivity.
Qed.

Lemma substring_0_8_hex32 u :
  substring 0 8 (hex32 u) = hex_aux 8 (u / 16 ^ 24)%N EmptyString.
Proof.
  unfold hex32. change 32%nat with (8 + 24)%nat. rewrite hex_aux_add.
  change (N.of_nat 24) with 24%N.
  rewrite <- (hex_aux_length 8 (u / 16 ^ 24)%N) at 1.
  apply substring_prefix.
Qed.

(** The first eight characters of [str(u)] are the eight leading digits. *)
Lemma str_prefix u :
  substring 0 8 (str u) = hex_aux 8 (u / 16 ^ 24)%N EmptyString.
Proof.
  unfold str. cbv zeta. rewrite substring_0_8_hex32.
  rewrite <- (hex_aux_length 8 (u / 16 ^ 24)%N) at 1.
  apply substring_prefix.
Qed.

(** Forcing the version and the variant leaves the 32 leading bits. *)
Lemma uuid4_leading random :
  (uuid4 random / 16 ^ 24 = random / 16 ^ 24)%N.
Proof.
  change (16 ^ 24)%N with (2 ^ 96)%N. rewrite <- !N.shiftr_div_pow2.
  unfold uuid4. cbv zeta.
  repeat (rewrite N.shiftr_lor || rewrite N.shiftr_ldiff).
  change (N.shiftr (N.shiftl 49152 48) 96) with 0%N.
  change (N.shiftr (N.shiftl 32768 48) 96) with 0%N.
  change (N.shiftr (N.shiftl 61440 64) 96) with 0%N.
  change (N.shiftr (N.shiftl 4 76) 96) with 0%N.
  rewrite !N.lor_0_r, !N.ldiff_0_r. reflexivity.
Qed.

Lemma hex_value_digit d : (d < 16)%N -> hex_value (hex_digit d) = d.
Proof.
  intros H. rewrite <- (N2Nat.id d) in *.
  assert (Hn : (N.to_nat d < 16)%nat) by lia.
  revert Hn. generalize (N.to_nat d). intros n Hn.
  do 16 (destruct n as [|n]; [reflexivity |]). lia.
Qed.

Lemma unhex_app x c : forall acc,
  unhex (x +:+ String c EmptyString) acc = (16 * unhex x acc + hex_value c)%N.
Proof.
  induction x as [|a x IH]; intros acc; [reflexivity |].
  rewrite append_cons. simpl. apply IH.
Qed.

(** Reading back [k] digits gives the number modulo [16^k]. *)
Lemma unhex_hex_aux k : forall n,
  unhex (hex_aux k n EmptyString) 0 = (n mod 16 ^ N.of_nat k)%N.
Proof.
  induction k as [|k IH]; intros n.
  - simpl. rewrite N.mod_1_r. reflexivity.
  - rewrite hex_aux_S, unhex_app, IH, hex_value_digit
      by (apply N.mod_upper_bound; discriminate).
    rewrite Nat2N.inj_succ, N.pow_succ_r'.
    rewrite N.Div0.mod_mul_r. lia.
Qed.

End UuidFacts.

(** The task id is the eight hexadecimal digits of the 32 leading bits of
    the random draw, so two ids are equal only when those bits are. *)
Lemma new_task_id_leading random :
  new_task_id random = Uuid.hex_aux 8 (random / 2 ^ 96)%N EmptyString.
Proof.
  unfold new_task_id. rewrite UuidFacts.str_prefix, UuidFacts.uuid4_leading.
  reflexivity.
Qed.

Lemma new_task_id_inj r1 r2 :
  new_task_id r1 = new_task_id r2 -> leading32 r1 = leading32 r2.
Proof.
  intros H. rewrite !new_task_id_leading in H.
  apply (f_equal (fun s => Uuid.unhex s 0)) in H.
  rewrite !UuidFacts.unhex_hex_aux in H. exact H.
Qed.

(** ** Progress arithmetic *)

Lemma gt0_true d : gt0 d = true <-> (0 < d)%Q.
Proof.
  unfold gt0. destruct (Qlt_le_dec 0 d) as [H|H]; split; auto; try discriminate.
  intros H'. exfalso. exact (Qlt_not_le _ _ H' H).
Qed.

(** Truncation toward zero is monotone. *)
Lemma py_trunc_mono (x y : Q) : (x <= y)%Q -> py_trunc x <= py_trunc y.
Proof.
  destruct x as [n d], y as [n' d']. unfold Qle, py_trunc. simpl. intros H.
  destruct (Z_lt_le_dec n 0) as [Hn|Hn], (Z_lt_le_dec n' 0) as [Hn'|Hn'].
  - assert (En : n = - (- n)) by lia. assert (En' : n' = - (- n')) by lia.
    rewrite En, En'.
    rewrite (Z.quot_opp_l (- n)), (Z.quot_opp_l (- n')) by discriminate.
    rewrite !Z.quot_div_nonneg by lia.
    assert (Hk : Z.pos d' * (- n' / Z.pos d') <= - n')
      by (apply Z.mul_div_le; lia).
    assert (- n' / Z.pos d' <= - n / Z.pos d); [| lia].
    apply Z.div_le_lower_bound; [lia |]. nia.
  - transitivity 0.
    + assert (En : n = - (- n)) by lia.
      rewrite En, (Z.quot_opp_l (- n)) by discriminate.
      assert (0 <= Z.quot (- n) (Z.pos d)) by (apply Z.quot_pos; lia). lia.
    + apply Z.quot_pos; lia.
  - exfalso. nia.
  - rewrite !Z.quot_div_nonneg by lia.
    assert (Hk : Z.pos d * (n / Z.pos d) <= n) by (apply Z.mul_div_le; lia).
    apply Z.div_le_lower_bound; [lia |]. nia.
Qed.

Lemma scaled_mono (d : Q) (a b : Z) :
  (0 < d)%Q -> a <= b ->
  ((inject_Z a / inject_Z 1000000) / d * inject_Z 70
   <= (inject_Z b / inject_Z 1000000) / d * inject_Z 70)%Q.
Proof.
  intros Hd Hab.
  apply Qmult_le_compat_r; [| discriminate].
  apply Qmult_le_compat_r; [| apply Qlt_le_weak, Qinv_lt_0_compat, Hd].
  apply Qmult_le_compat_r; [| discriminate].
  rewrite <- Zle_Qle. exact Hab.
Qed.

(** The written percentage grows with the timestamp. *)
Lemma progress_of_mono (d : Q) (a b : Z) :
  (0 < d)%Q -> a <= b -> progress_of a d <= progress_of b d.
Proof.
  intros Hd Hab. unfold progress_of. cbv zeta.
  pose proof (py_trunc_mono _ _ (scaled_mono d a b Hd Hab)). lia.
Qed.

Lemma progress_of_upper (tm : Z) (d : Q) : progress_of tm d <= 90.
Proof. unfold progress_of. cbv zeta. lia. Qed.

Lemma progress_of_lower (tm : Z) (d : Q) :
  (0 < d)%Q -> 0 <= tm -> 20 <= progress_of tm d.
Proof.
  intros Hd Htm. unfold progress_of. cbv zeta.
  pose proof (py_trunc_mono _ _ (scaled_mono d 0 tm Hd Htm)) as H.
  assert (H0 : py_trunc ((inject_Z 0 / inject_Z 1000000) / d * inject_Z 70)%Q = 0).
  { unfold py_trunc. destruct d as [dn dd]. simpl. reflexivity. }
  lia.
Qed.

(** ** Running the job *)

Lemma outcome_eta {A} (o : Outcome A) :
  mkOutcome (writes o) (final o) (result o) = o.
Proof. destruct o. reflexivity. Qed.

Lemma assign_run task_id f s t :
  s !! task_id = Some t ->
  assign task_id f s
  = mkOutcome [<[task_id := f t]> s] (<[task_id := f t]> s) (inr tt).
Proof. intros H. unfold assign. rewrite H. reflexivity. Qed.

Lemma bind_assign {B} task_id f (m : Job B) s t :
  s !! task_id = Some t ->
  (assign task_id f ;; m) s
  = mkOutcome (<[task_id := f t]> s :: writes (m (<[task_id := f t]> s)))
              (final (m (<[task_id := f t]> s)))
              (result (m (<[task_id := f t]> s))).
Proof. intros H. unfold bind. rewrite (assign_run _ _ _ _ H). reflexivity. Qed.

Lemma bind_ret {A B} (a : A) (k : A -> Job B) s : bind (ret a) k s = k a s.
Proof. unfold bind, ret. simpl. apply outcome_eta. Qed.

Lemma bind_raise {A B} e (k : A -> Job B) s :
  bind (raise e) k s = mkOutcome [] s (inl e).
Proof. reflexivity. Qed.

Lemma bind_inr {A B} (m : Job A) (k : A -> Job B) s a :
  result (m s) = inr a ->
  bind m k s = mkOutcome (writes (m s) ++ writes (k a (final (m s))))
                         (final (k a (final (m s))))
                         (result (k a (final (m s)))).
Proof. intros H. unfold bind. rewrite H. reflexivity. Qed.

Lemma bind_inl {A B} (m : Job A) (k : A -> Job B) s e :
  result (m s) = inl e ->
  bind m k s = mkOutcome (writes (m s)) (final (m s)) (inl e).
Proof. intros H. unfold bind. rewrite H. reflexivity. Qed.

(** Writing the progress twice leaves the second value. *)
Lemma set_progress_twice p q t : set_progress q (set_progress p t) = set_progress q t.
Proof. reflexivity. Qed.

Section JobFacts.

Variable py_float : string -> option Q.

(** What one line of the progress channel does. *)
Lemma on_line_eq duration task_id line s :
  on_line duration task_id line s
  = match event_time line with
    | Some time_ms =>
        if gt0 duration
        then match s !! task_id with
             | Some t =>
                 let s' := <[task_id := set_progress (progress_of time_ms duration) t]> s in
                 mkOutcome [s'] s' (inr tt)
             | None => mkOutcome [] s (inr tt)
             end
        else mkOutcome [] s (inr tt)
    | None => mkOutcome [] s (inr tt)
    end.
Proof.
  unfold on_line, event_time.
  destruct (PyStr.contains "out_time_ms=" line); [| reflexivity].
  destruct (PyStr.split "="%char line !! 1%nat) as [field|]; [| reflexivity].
  unfold try_except, bind, lift, ret, raise. simpl.
  destruct (PyStr.py_int field) as [n|]; [| reflexivity]. simpl.
  destruct (gt0 duration); [| reflexivity].
  unfold assign. destruct (s !! task_id); reflexivity.
Qed.

(** Without a positive duration the loop writes nothing. *)
Lemma loop_unknown_duration duration task_id lines s :
  gt0 duration = false ->
  for_each lines (on_line duration task_id) s = mkOutcome [] s (inr tt).
Proof.
  intros Hd. induction lines as [|line lines IH]; [reflexivity |].
  simpl. unfold bind. rewrite on_line_eq, Hd.
  destruct (event_time line); simpl; rewrite IH; reflexivity.
Qed.

(** The loop ends normally and changes at most the progress of the task. *)
Lemma loop_final duration task_id lines : forall s t,
  s !! task_id = Some t ->
  result (for_each lines (on_line duration task_id) s) = inr tt
  /\ exists p,
       final (for_each lines (on_line duration task_id) s)
       = <[task_id := set_progress p t]> s.
Proof.
  induction lines as [|line lines IH]; intros s t Hs.
  - simpl. split; [reflexivity |]. exists (progress t).
    symmetry. apply insert_id. rewrite Hs. destruct t; reflexivity.
  - simpl. unfold bind. rewrite on_line_eq.
    destruct (event_time line) as [tm|]; [destruct (gt0 duration) |].
    + rewrite Hs. simpl.
      destruct (IH (<[task_id := set_progress (progress_of tm duration) t]> s)
                  (set_progress (progress_of tm duration) t)) as [Hr [p Hp]];
        [apply lookup_insert_eq |].
      rewrite Hr, Hp. split; [reflexivity |]. exists p.
      rewrite insert_insert_eq. reflexivity.
    + simpl. destruct (IH s t Hs) as [Hr [p Hp]]. rewrite Hr, Hp. eauto.
    + simpl. destruct (IH s t Hs) as [Hr [p Hp]]. rewrite Hr, Hp. eauto.
Qed.


End JobFacts.

(** ** Finalization *)

Lemma finalize_success process output_path task_id s t :
  s !! task_id = Some t ->
  returncode process = 0 ->
  finalize process output_path task_id s
  = mkOutcome
      [<[task_id := set_status completed t]> s;
       <[task_id := set_progress 100 (set_status completed t)]> s;
       <[task_id := mkTask completed 100 (Some (path_name output_path)) (error t)]> s]
      (<[task_id := mkTask completed 100 (Some (path_name output_path)) (error t)]> s)
      (inr true).
Proof.
  intros Hs Hrc. unfold finalize. rewrite Hrc. simpl.
  rewrite (bind_assign _ _ _ _ _ Hs).
  rewrite (bind_assign _ _ _ _ (set_status completed t)) by apply lookup_insert_eq.
  rewrite (bind_assign _ _ _ _ (set_progress 100 (set_status completed t)))
    by apply lookup_insert_eq.
  rewrite !insert_insert_eq. reflexivity.
Qed.

Lemma finalize_failure process output_path task_id s t err :
  s !! task_id = Some t ->
  returncode process <> 0 ->
  stderr_read process = inr err ->
  finalize process output_path task_id s
  = mkOutcome
      [<[task_id := set_status failed t]> s;
       <[task_id := mkTask failed (progress t) (output_file t) (Some err)]> s]
      (<[task_id := mkTask failed (progress t) (output_file t) (Some err)]> s)
      (inr false).
Proof.
  intros Hs Hrc Herr. unfold finalize.
  rewrite (proj2 (Z.eqb_neq _ _) Hrc).
  rewrite (bind_assign _ _ _ _ _ Hs).
  rewrite Herr. unfold bind, lift, ret. simpl.
  rewrite (assign_run _ _ _ (set_status failed t)) by apply lookup_insert_eq.
  simpl. rewrite !insert_insert_eq. reflexivity.
Qed.

Lemma finalize_stderr_raises process output_path task_id s t e :
  s !! task_id = Some t ->
  returncode process <> 0 ->
  stderr_read process = inl e ->
  finalize process output_path task_id s
  = mkOutcome [<[task_id := set_status failed t]> s]
              (<[task_id := set_status failed t]> s) (inl e).
Proof.
  intros Hs Hrc Herr. unfold finalize.
  rewrite (proj2 (Z.eqb_neq _ _) Hrc).
  rewrite (bind_assign _ _ _ _ _ Hs).
  rewrite Herr. reflexivity.
Qed.

Section Runner.

Variable py_float : string -> option Q.

(** The three assignments that open [create_video_with_waveform]. *)
Lemma create_video_run env cover_path audio_path output_path task_id s t :
  s !! task_id = Some t ->
  let s20 := <[task_id := set_progress 20 (set_status processing t)]> s in
  let o := drive_process py_float env output_path task_id s20 in
  create_video_with_waveform py_float env cover_path audio_path output_path task_id s
  = mkOutcome
      (<[task_id := set_status processing t]> s
       :: <[task_id := set_progress 10 (set_status processing t)]> s
       :: s20 :: writes o)
      (final o) (result o).
Proof.
  intros Hs s20 o. unfold create_video_with_waveform.
  rewrite (bind_assign _ _ _ _ _ Hs).
  rewrite (bind_assign _ _ _ _ (set_status processing t)) by apply lookup_insert_eq.
  rewrite (bind_assign _ _ _ _ (set_progress 10 (set_status processing t)))
    by apply lookup_insert_eq.
  rewrite !insert_insert_eq. reflexivity.
Qed.

(** The steps of [drive_process] when both subprocesses could be run. *)
Lemma drive_process_run env output_path task_id s process out :
  popen env = inr process ->
  ffprobe_run env = inr out ->
  let duration := match py_float (PyStr.strip out) with
                  | Some d => d
                  | None => 0%Q
                  end in
  drive_process py_float env output_path task_id s
  = (read_progress process duration task_id ;;
     finalize process output_path task_id) s.
Proof.
  intros Hp Hf duration. unfold drive_process, get_audio_duration.
  subst duration. rewrite Hp, Hf. unfold lift, bind at 1 2 3, ret. simpl.
  apply outcome_eta.
Qed.

(** C1. When ffmpeg was started and its progress read to the end, the
    record is finalized by the exit code: with exit code 0 the status is
    completed, the progress 100 and the output file the name of the output
    path; with any other exit code the status is failed and the error is
    the text read from the error stream. *)
Theorem finalized_by_exit_code (env : Env)
    (cover_path audio_path output_path task_id : string)
    (s : gmap string Task) (t : Task) (process : Process) (out : string) :
  s !! task_id = Some t ->
  popen env = inr process ->
  ffprobe_run env = inr out ->
  stdout_error process = None ->
  let o := create_video_with_waveform py_float env
             cover_path audio_path output_path task_id s in
  (returncode process = 0 ->
     result o = inr true
     /\ exists t', final o !! task_id = Some t'
          /\ status t' = completed
          /\ progress t' = 100
          /\ output_file t' = Some (path_name output_path))
  /\ (returncode process <> 0 ->
      forall err, stderr_read process = inr err ->
        result o = inr false
        /\ exists t', final o !! task_id = Some t'
             /\ status t' = failed
             /\ error t' = Some err).
Proof.
  intros Hs Hp Hf Herr o. subst o.
  rewrite (create_video_run _ _ _ _ _ _ _ Hs). simpl.
  rewrite (drive_process_run _ _ _ _ _ _ Hp Hf).
  unfold read_progress. rewrite Herr.
  set (duration := match py_float (PyStr.strip out) with
                   | Some d => d | None => 0%Q end).
  set (s20 := <[task_id := set_progress 20 (set_status processing t)]> s).
  destruct (loop_final duration task_id (stdout_lines process) s20
              (set_progress 20 (set_status processing t))) as [Hr [p Hfin]];
    [apply lookup_insert_eq |].
  set (loop := for_each (stdout_lines process) (on_line duration task_id)) in *.
  assert (Hread : (loop ;; ret tt) s20
                  = mkOutcome (writes (loop s20)) (final (loop s20)) (inr tt)).
  { rewrite (bind_inr _ _ _ _ Hr). unfold ret. simpl.
    rewrite app_nil_r. reflexivity. }
  assert (Hpres : final (loop s20) !! task_id
                  = Some (set_progress p (set_progress 20 (set_status processing t)))).
  { rewrite Hfin. apply lookup_insert_eq. }
  split.
  - intros Hrc.
    rewrite (bind_inr _ _ s20 tt) by (rewrite Hread; reflexivity).
    rewrite Hread. simpl.
    rewrite (finalize_success _ _ _ _ _ Hpres Hrc). simpl.
    split; [reflexivity |]. eexists. split; [apply lookup_insert_eq |].
    repeat split.
  - intros Hrc err Herr'.
    rewrite (bind_inr _ _ s20 tt) by (rewrite Hread; reflexivity).
    rewrite Hread. simpl.
    rewrite (finalize_failure _ _ _ _ _ _ Hpres Hrc Herr'). simpl.
    split; [reflexivity |]. eexists. split; [apply lookup_insert_eq |].
    repeat split.
Qed.

End Runner.

(** ** The record of a task is never removed by a job *)

Lemma keeps_ret {A} task_id (a : A) : keeps task_id (ret a).
Proof. intros s H. exact H. Qed.

Lemma keeps_raise {A} task_id e : keeps task_id (@raise A e).
Proof. intros s H. exact H. Qed.

Lemma keeps_lift {A} task_id (r : py_exception + A) : keeps task_id (lift r).
Proof. destruct r; [apply keeps_raise | apply keeps_ret]. Qed.

Lemma keeps_assign task_id f : keeps task_id (assign task_id f).
Proof.
  intros s [t Ht]. rewrite (assign_run _ _ _ _ Ht). simpl.
  rewrite lookup_insert_eq. eauto.
Qed.

Lemma keeps_bind {A B} task_id (m : Job A) (k : A -> Job B) :
  keeps task_id m -> (forall a, keeps task_id (k a)) -> keeps task_id (bind m k).
Proof.
  intros Hm Hk s H. unfold bind. specialize (Hm s H).
  destruct (result (m s)) as [e|a]; simpl; [exact Hm | apply Hk, Hm].
Qed.

Lemma keeps_try_except {A} task_id (m : Job A) h :
  keeps task_id m -> (forall e, keeps task_id (h e)) ->
  keeps task_id (try_except m h).
Proof.
  intros Hm Hh s H. unfold try_except. specialize (Hm s H).
  destruct (result (m s)) as [e|a]; simpl; [apply Hh, Hm | exact Hm].
Qed.

Lemma keeps_for_each {A} task_id (xs : list A) body :
  (forall x, keeps task_id (body x)) -> keeps task_id (for_each xs body).
Proof.
  intros Hb. induction xs as [|x xs IH]; simpl.
  - apply keeps_ret.
  - apply keeps_bind; [apply Hb | intros _; exact IH].
Qed.

Lemma keeps_on_line duration task_id line : keeps task_id (on_line duration task_id line).
Proof.
  intros s [t Ht]. rewrite on_line_eq, Ht.
  destruct (event_time line); [destruct (gt0 duration) |]; simpl;
    rewrite ?lookup_insert_eq, ?Ht; eauto.
Qed.

Create HintDb keeps.
#[local] Hint Resolve keeps_ret keeps_raise keeps_lift keeps_assign
  keeps_try_except keeps_for_each keeps_on_line : keeps.

Lemma keeps_finalize process output_path task_id :
  keeps task_id (finalize process output_path task_id).
Proof.
  unfold finalize. destruct (returncode process =? 0);
    repeat (apply keeps_bind; [| intros ?]); auto with keeps.
Qed.

Section Orchestration.

Variable py_float : string -> option Q.

Lemma keeps_create_video env cover_path audio_path output_path task_id :
  keeps task_id
    (create_video_with_waveform py_float env cover_path audio_path output_path task_id).
Proof.
  unfold create_video_with_waveform, drive_process, get_audio_duration, read_progress.
  repeat (apply keeps_bind; [| intros ?]); auto using keeps_finalize with keeps.
  destruct (stdout_error _); auto with keeps.
Qed.

(** X21. When ffprobe was run, the duration probe gives the number it
    printed, and 0 when what it printed is no number; with a duration of 0
    the loop over the
    progress lines writes nothing, so the progress set to 20 before the
    process was started is the one in place when finalization begins. *)
Theorem unknown_duration_keeps_floor (env : Env)
    (cover_path audio_path output_path task_id : string)
    (s : gmap string Task) (t : Task) (process : Process) (out : string) :
  s !! task_id = Some t ->
  popen env = inr process ->
  ffprobe_run env = inr out ->
  let probe := get_audio_duration py_float (ffprobe_run env) in
  let s20 := <[task_id := set_progress 20 (set_status processing t)]> s in
  (forall d s', py_float (PyStr.strip out) = Some d -> result (probe s') = inr d)
  /\ (forall s', py_float (PyStr.strip out) = None -> result (probe s') = inr 0%Q)
  /\ (forall d, result (probe s20) = inr d -> (d == 0)%Q ->
        progress <$> s20 !! task_id = Some 20
        /\ for_each (stdout_lines process) (on_line d task_id) s20
           = mkOutcome [] s20 (inr tt)
        /\ (stdout_error process = None ->
            let o := create_video_with_waveform py_float env
                       cover_path audio_path output_path task_id s in
            let fin := finalize process output_path task_id s20 in
            writes o
            = [<[task_id := set_status processing t]> s;
               <[task_id := set_progress 10 (set_status processing t)]> s;
               s20] ++ writes fin
            /\ final o = final fin
            /\ result o = result fin)).
Proof.
  intros Hs Hp Hf probe s20. subst probe.
  unfold get_audio_duration. rewrite Hf. unfold lift. split; [| split].
  - intros d s' Hd. rewrite bind_ret, Hd. reflexivity.
  - intros s' Hd. rewrite bind_ret, Hd. reflexivity.
  - intros d Hres Hd0. rewrite bind_ret in Hres. unfold ret in Hres. simpl in Hres.
    assert (Hgt : gt0 d = false).
    { destruct (gt0 d) eqn:E; [| reflexivity].
      apply gt0_true in E. rewrite Hd0 in E. exfalso. exact (Qlt_irrefl _ E). }
    split; [subst s20; rewrite lookup_insert_eq; reflexivity |].
    split; [apply loop_unknown_duration, Hgt |].
    intros Herr.
    rewrite (create_video_run _ _ _ _ _ _ _ _ Hs). simpl. fold s20.
    rewrite (drive_process_run _ _ _ _ _ _ _ Hp Hf).
    injection Hres as Hres. rewrite Hres.
    unfold read_progress. rewrite Herr.
    assert (Heq : ((for_each (stdout_lines process) (on_line d task_id) ;; ret tt) ;;
                   finalize process output_path task_id) s20
                  = finalize process output_path task_id s20).
    { unfold bind at 1 2. rewrite (loop_unknown_duration _ _ _ _ Hgt). simpl.
      apply outcome_eta. }
    rewrite Heq. repeat split.
Qed.

(** C8. When the orchestration raises an exception, the thread catches it
    and ends normally: its last write leaves the task with the status
    failed and the text of the exception as error, and every later poll of
    that registry reports this record. *)
Theorem exception_marks_failed (env : Env)
    (task_id audio_path cover_path output_path : string)
    (s : gmap string Task) (t : Task) (e : py_exception) :
  s !! task_id = Some t ->
  result (create_video_with_waveform py_float env
            cover_path audio_path output_path task_id s) = inl e ->
  let o := process_video_task py_float env
             task_id audio_path cover_path output_path s in
  result o = inr tt
  /\ last (writes o) = Some (final o)
  /\ exists t', final o !! task_id = Some t'
       /\ status t' = failed
       /\ error t' = Some (str_exception e)
       /\ forall fs th, get_status task_id (mkWorld (final o) fs th) = JsonTask t'.
Proof.
  intros Hs He o. subst o. unfold process_video_task, try_except.
  rewrite (bind_inl _ _ _ _ He). simpl.
  destruct (keeps_create_video env cover_path audio_path output_path task_id s)
    as [t1 Ht1]; [eauto |].
  rewrite (bind_assign _ _ _ _ _ Ht1). simpl.
  rewrite (assign_run _ _ _ (set_status failed t1)) by apply lookup_insert_eq.
  simpl. split; [reflexivity |]. split.
  - rewrite last_app. reflexivity.
  - eexists. split; [apply lookup_insert_eq |]. repeat split.
    intros fs th. unfold get_status. simpl. rewrite lookup_insert_eq. reflexivity.
Qed.

End Orchestration.

(** ** Progress seen by a poller *)

Lemma last_cons {A} (x : A) l d : List.last (x :: l) d = List.last l x.
Proof.
  revert x d. induction l as [|y l IH]; intros x d; [reflexivity |].
  change (List.last (x :: y :: l) d) with (List.last (y :: l) d).
  rewrite !IH. reflexivity.
Qed.

Lemma last_append {A} (l1 l2 : list A) d :
  List.last (l1 ++ l2) d = List.last l2 (List.last l1 d).
Proof.
  revert d. induction l1 as [|x l1 IH]; intros d; [reflexivity |].
  rewrite <- app_comm_cons, !last_cons. apply IH.
Qed.

Lemma sorted_chain ps : forall p qs,
  Sorted Z.le (p :: ps) -> Sorted Z.le (List.last ps p :: qs) ->
  Sorted Z.le (p :: ps ++ qs).
Proof.
  induction ps as [|x ps IH]; intros p qs H1 H2; [exact H2 |].
  rewrite last_cons in H2. inversion H1 as [|? ? Hs Hh]; subst.
  inversion Hh; subst. simpl. constructor.
  - apply IH; assumption.
  - constructor. assumption.
Qed.

Section Rising.

Variable task_id : string.

Lemma rising_weaken {A} a b a' b' (m : Job A) :
  a' <= a -> b <= b' -> rising task_id a b m -> rising task_id a' b' m.
Proof.
  intros Ha Hb H s p Hs Hp. destruct (H s p Hs) as [ps [H1 [H2 [H3 H4]]]]; [lia |].
  exists ps. repeat split; try assumption. lia.
Qed.

Lemma rising_ret {A} a b (x : A) : a <= b -> rising task_id a b (ret x).
Proof.
  intros Hab s p Hs Hp. exists []. simpl.
  repeat split; [constructor | repeat constructor | assumption | lia].
Qed.

Lemma rising_raise {A} a b e : a <= b -> rising task_id a b (@raise A e).
Proof.
  intros Hab s p Hs Hp. exists []. simpl.
  repeat split; [constructor | repeat constructor | assumption | lia].
Qed.

Lemma rising_assign_keep a b f :
  (forall t, progress (f t) = progress t) -> a <= b ->
  rising task_id a b (assign task_id f).
Proof.
  intros Hf Hab s p Hs Hp.
  destruct (s !! task_id) as [t|] eqn:Ht; [| discriminate].
  injection Hs as Hs. rewrite (assign_run _ _ _ _ Ht). simpl.
  exists [p]. simpl. repeat split.
  - constructor; [| constructor]. rewrite lookup_insert_eq. simpl. rewrite Hf, Hs. reflexivity.
  - repeat constructor. lia.
  - rewrite lookup_insert_eq. simpl. rewrite Hf, Hs. reflexivity.
  - lia.
Qed.

Lemma rising_assign_progress a b v :
  a <= v -> v <= b -> rising task_id a b (assign task_id (set_progress v)).
Proof.
  intros Hav Hvb s p Hs Hp.
  destruct (s !! task_id) as [t|] eqn:Ht; [| discriminate].
  rewrite (assign_run _ _ _ _ Ht). simpl.
  exists [v]. simpl. repeat split.
  - constructor; [| constructor]. rewrite lookup_insert_eq. reflexivity.
  - repeat constructor. lia.
  - rewrite lookup_insert_eq. reflexivity.
  - lia.
Qed.

Lemma rising_bind {A B} a b c (m : Job A) (k : A -> Job B) :
  rising task_id a b m -> (forall x, result_of m x -> rising task_id b c (k x)) ->
  b <= c -> rising task_id a c (bind m k).
Proof.
  intros Hm Hk Hbc s p Hs Hp.
  destruct (Hm s p Hs Hp) as [ps [H1 [H2 [H3 H4]]]].
  unfold bind. destruct (result (m s)) as [e|x] eqn:Hr; simpl.
  - exists ps. repeat split; try assumption. lia.
  - destruct (Hk x (ex_intro _ s Hr) (final (m s)) _ H3 H4) as [qs [G1 [G2 [G3 G4]]]].
    exists (ps ++ qs). repeat split.
    + apply Forall2_app; assumption.
    + apply sorted_chain; assumption.
    + rewrite last_append. exact G3.
    + rewrite last_append. exact G4.
Qed.

Lemma rising_try_except {A} a b c (m : Job A) h :
  rising task_id a b m -> (forall e, rising task_id b c (h e)) ->
  b <= c -> rising task_id a c (try_except m h).
Proof.
  intros Hm Hh Hbc s p Hs Hp.
  destruct (Hm s p Hs Hp) as [ps [H1 [H2 [H3 H4]]]].
  unfold try_except. destruct (result (m s)) as [e|x] eqn:Hr; simpl.
  - destruct (Hh e (final (m s)) _ H3 H4) as [qs [G1 [G2 [G3 G4]]]].
    exists (ps ++ qs). repeat split.
    + apply Forall2_app; assumption.
    + apply sorted_chain; assumption.
    + rewrite last_append. exact G3.
    + rewrite last_append. exact G4.
  - exists ps. repeat split; try assumption. lia.
Qed.

End Rising.

Section RisingJob.

Variable py_float : string -> option Q.
Variable task_id : string.

Lemma rising_lift {A} a b (r : py_exception + A) :
  a <= b -> rising task_id a b (lift r).
Proof. destruct r; [apply rising_raise | apply rising_ret]. Qed.

Lemma result_of_lift {A} (r : py_exception + A) x : result_of (lift r) x -> r = inr x.
Proof.
  intros [s Hs]. destruct r as [e|y]; simpl in Hs; [discriminate | congruence].
Qed.

(** The loop over the progress lines, from a progress [p] that no later
    event falls below. *)
Lemma loop_rising duration lines : forall s p,
  progress <$> s !! task_id = Some p ->
  p <= 90 ->
  (gt0 duration = true ->
   Forall (fun tm => p <= progress_of tm duration) (timestamps lines)) ->
  Sorted Z.le (timestamps lines) ->
  exists ps, polled task_id (writes (for_each lines (on_line duration task_id) s)) ps
    /\ Sorted Z.le (p :: ps)
    /\ progress <$> final (for_each lines (on_line duration task_id) s) !! task_id
       = Some (List.last ps p)
    /\ List.last ps p <= 90.
Proof.
  induction lines as [|line lines IH]; intros s p Hs Hp Hlow Hsorted.
  - exists []. simpl. repeat split; [constructor | repeat constructor | assumption | lia].
  - simpl. unfold bind. rewrite on_line_eq.
    unfold timestamps in *. simpl in Hlow, Hsorted.
    destruct (event_time line) as [tm|] eqn:Hev;
      [destruct (gt0 duration) eqn:Hgt |].
    + destruct (s !! task_id) as [t|] eqn:Ht; [| discriminate].
      simpl.
      specialize (Hlow eq_refl). inversion Hlow as [|? ? Hhd Htl]; subst.
      assert (Hd : (0 < duration)%Q) by (apply gt0_true; exact Hgt).
      destruct (IH (<[task_id := set_progress (progress_of tm duration) t]> s)
                   (progress_of tm duration)) as [ps [H1 [H2 [H3 H4]]]].
      * rewrite lookup_insert_eq. reflexivity.
      * apply progress_of_upper.
      * intros _. apply Sorted_extends in Hsorted; [| intros x y z; lia].
        eapply Forall_impl; [exact Hsorted |].
        intros tm' Hle. simpl in Hle. apply progress_of_mono; assumption.
      * inversion Hsorted; assumption.
      * exists (progress_of tm duration :: ps). repeat split.
        -- constructor; [| exact H1]. rewrite lookup_insert_eq. reflexivity.
        -- constructor; [exact H2 | constructor; exact Hhd].
        -- rewrite last_cons. exact H3.
        -- rewrite last_cons. exact H4.
    + simpl.
      destruct (IH s p Hs Hp) as [ps [H1 [H2 [H3 H4]]]].
      * intros Hc. congruence.
      * inversion Hsorted; assumption.
      * exists ps. repeat split; assumption.
    + simpl.
      destruct (IH s p Hs Hp Hlow Hsorted) as [ps [H1 [H2 [H3 H4]]]].
      exists ps. repeat split; assumption.
Qed.

Lemma rising_loop duration lines :
  Forall (fun tm => 0 <= tm) (timestamps lines) ->
  Sorted Z.le (timestamps lines) ->
  rising task_id 20 90 (for_each lines (on_line duration task_id)).
Proof.
  intros Hpos Hsorted s p Hs Hp.
  apply loop_rising; [assumption | lia | | assumption].
  intros Hgt. eapply Forall_impl; [exact Hpos |].
  intros tm Htm. simpl in Htm.
  pose proof (progress_of_lower tm duration (proj1 (gt0_true _) Hgt) Htm). lia.
Qed.

Lemma rising_finalize process output_path :
  rising task_id 90 100 (finalize process output_path task_id).
Proof.
  unfold finalize. destruct (returncode process =? 0).
  - apply (rising_bind _ 90 90 100); [| intros _ _ | lia].
    { apply rising_assign_keep; [reflexivity | lia]. }
    apply (rising_bind _ 90 100 100); [| intros _ _ | lia].
    { apply rising_assign_progress; lia. }
    apply (rising_bind _ 100 100 100); [| intros _ _ | lia].
    { apply rising_assign_keep; [reflexivity | lia]. }
    apply rising_ret. lia.
  - apply (rising_bind _ 90 90 100); [| intros _ _ | lia].
    { apply rising_assign_keep; [reflexivity | lia]. }
    apply (rising_bind _ 90 90 100); [| intros _ _ | lia].
    { apply (rising_bind _ 90 90 90); [| intros err _ | lia].
      - apply rising_lift. lia.
      - apply rising_assign_keep; [reflexivity | lia]. }
    apply rising_ret. lia.
Qed.

Lemma rising_process_video_task env audio_path cover_path output_path :
  (forall process, popen env = inr process ->
     Forall (fun tm => 0 <= tm) (timestamps (stdout_lines process))
     /\ Sorted Z.le (timestamps (stdout_lines process))) ->
  rising task_id 0 100
    (process_video_task py_float env task_id audio_path cover_path output_path).
Proof.
  intros Henv. unfold process_video_task.
  apply (rising_try_except _ 0 100 100); [| intros e | lia].
  - apply (rising_bind _ 0 100 100); [| intros _ _; apply rising_ret; lia | lia].
    unfold create_video_with_waveform.
    apply (rising_bind _ 0 0 100); [| intros _ _ | lia].
    { apply rising_assign_keep; [reflexivity | lia]. }
    apply (rising_bind _ 0 10 100); [| intros _ _ | lia].
    { apply rising_assign_progress; lia. }
    apply (rising_bind _ 10 20 100); [| intros _ _ | lia].
    { apply rising_assign_progress; lia. }
    unfold drive_process.
    apply (rising_bind _ 20 20 100); [apply rising_lift; lia | | lia].
    intros process Hproc. apply result_of_lift in Hproc.
    destruct (Henv process Hproc) as [Hpos Hsorted].
    apply (rising_bind _ 20 20 100); [| intros duration _ | lia].
    { unfold get_audio_duration.
      apply (rising_bind _ 20 20 20); [apply rising_lift; lia | | lia].
      intros out _. apply rising_ret. lia. }
    apply (rising_bind _ 20 90 100); [| intros _ _; apply rising_finalize | lia].
    unfold read_progress.
    apply (rising_bind _ 20 90 90); [apply rising_loop; assumption | | lia].
    intros _ _. destruct (stdout_error process); [apply rising_raise | apply rising_ret]; lia.
  - apply (rising_bind _ 100 100 100); [| intros _ _ | lia].
    + apply rising_assign_keep; [reflexivity | lia].
    + apply rising_assign_keep; [reflexivity | lia].
Qed.

(** C3. When the timestamps that ffmpeg reports are not negative and do
    not decrease, the progress values that successive polls can observe,
    from the record created at submission (progress 0) to the last write of
    the job, never decrease. *)
Theorem progress_nondecreasing (env : Env)
    (audio_path cover_path output_path : string) (s : gmap string Task) :
  s !! task_id = Some (mkTask queued 0 None None) ->
  (forall process, popen env = inr process ->
     Forall (fun tm => 0 <= tm) (timestamps (stdout_lines process))
     /\ Sorted Z.le (timestamps (stdout_lines process))) ->
  progress_monotone task_id
    (observable (process_video_task py_float env
                   task_id audio_path cover_path output_path) s).
Proof.
  intros Hs Henv.
  destruct (rising_process_video_task env audio_path cover_path output_path Henv s 0)
    as [ps [H1 [H2 _]]]; [rewrite Hs; reflexivity | lia |].
  exists (0 :: ps). split.
  - unfold observable. constructor; [rewrite Hs; reflexivity | exact H1].
  - apply Sorted_StronglySorted; [intros x y z; lia | exact H2].
Qed.

End RisingJob.

(** ** Uniqueness of task identifiers *)

Lemma accepted_id secure_filename sub task_id :
  accepted secure_filename sub task_id -> task_id = new_task_id (sub_random sub).
Proof.
  intros [msg H]. unfold upload_files, start_task in H.
  destruct (audio (sub_request sub)) as [a|]; [| discriminate].
  destruct (String.eqb (filename a) ""); [discriminate |].
  destruct (negb (allowed_audio (filename a))); [discriminate |].
  destruct (cover_accepted (cover (sub_request sub))).
  - simpl in H. congruence.
  - destruct (exists_ DEFAULT_COVER _); [| discriminate].
    simpl in H. congruence.
Qed.

Lemma NoDup_through {A B C} (f : A -> B) (g : A -> C) (l : list A) :
  (forall x y, f x = f y -> g x = g y) ->
  NoDup (map g l) -> NoDup (map f l).
Proof.
  intros Hfg. induction l as [|x l IH]; simpl; intros H; [constructor |].
  apply NoDup_cons in H as [Hx Hl]. apply NoDup_cons. split; [| auto].
  intros Hin. apply Hx.
  apply list_elem_of_In, in_map_iff in Hin as [y [Hy Hyl]].
  apply list_elem_of_In, in_map_iff. exists y. split; [| assumption].
  apply Hfg. assumption.
Qed.

(** C4. The ids returned to accepted submissions are pairwise distinct
    whenever the random draws of their UUIDs differ pairwise in their 32
    leading bits, the part of the UUID the id keeps. *)
Theorem task_ids_distinct (secure_filename : string -> string)
    (subs : list Submission) (ids : list string) :
  NoDup (map (fun sub => leading32 (sub_random sub)) subs) ->
  Forall2 (accepted secure_filename) subs ids ->
  NoDup ids.
Proof.
  intros Hnd Hacc.
  assert (Hids : ids = map (fun sub => new_task_id (sub_random sub)) subs).
  { induction Hacc as [|sub id subs ids Ha _ IH]; [reflexivity |].
    simpl. apply NoDup_cons in Hnd as [_ Hnd].
    rewrite <- (IH Hnd), (accepted_id _ _ _ Ha). reflexivity. }
  rewrite Hids. revert Hnd. apply NoDup_through.
  intros x y. apply new_task_id_inj.
Qed.

(** ** The properties on the sample inputs *)

Lemma polled_unique task_id obs ps :
  polled task_id obs ps -> ps = omap (fun s => progress <$> s !! task_id) obs.
Proof.
  induction 1 as [|s p obs ps Hp _ IH]; [reflexivity |].
  simpl. rewrite Hp. simpl. f_equal. exact IH.
Qed.

Ltac unsort :=
  repeat match goal with
         | H : StronglySorted _ (_ :: _) |- _ => inversion H; clear H; subst
         | H : Forall _ (_ :: _) |- _ => inversion H; clear H; subst
         end.


(** C3, timestamps that go backward: the polls see 55 and then 37. *)
Lemma backward_timestamps_lower_progress :
  ~ progress_monotone "12345678"
      (observable (process_video_task float_plain backward_env "12345678"
                     sample_audio_path DEFAULT_COVER sample_output_path)
                  fresh_registry).
Proof.
  intros [ps [Hp Hs]]. apply polled_unique in Hp.
  vm_compute in Hp. subst ps. unsort. lia.
Qed.

(** C4, two UUIDs that differ after their first eight digits: both
    submissions are accepted and answered with the id 12345678. *)
Lemma truncated_ids_collide :
  Uuid.uuid4 (sub_random first_submission) <> Uuid.uuid4 (sub_random second_submission)
  /\ accepted keep_name first_submission "12345678"
  /\ accepted keep_name second_submission "12345678"
  /\ ~ task_ids_unique keep_name [first_submission; second_submission].
Proof.
  assert (H1 : accepted keep_name first_submission "12345678").
  { exists "开始处理". vm_compute. reflexivity. }
  assert (H2 : accepted keep_name second_submission "12345678").
  { exists "开始处理". vm_compute. reflexivity. }
  split; [intros H; vm_compute in H; discriminate |].
  split; [exact H1 |]. split; [exact H2 |].
  intros H. specialize (H ["12345678"; "12345678"]).
  assert (Hnd : NoDup ["12345678"; "12345678"]).
  { apply H. constructor; [exact H1 |]. constructor; [exact H2 | constructor]. }
  apply NoDup_cons in Hnd as [Hnd _]. apply Hnd. constructor.
Qed.

(** C7, ffprobe cannot be run: the call of line 55 is outside the try
    block, so the probe raises instead of returning 0, and the job ends
    failed with that exception as error although ffmpeg was started. *)
Lemma probe_raises_when_ffprobe_cannot_run :
  popen probe_broken_env = inr steady_process
  /\ result (get_audio_duration float_plain (ffprobe_run probe_broken_env)
               fresh_registry)
     = inl (OSError "[Errno 2] No such file or directory: 'ffprobe'")
  /\ result (get_audio_duration float_plain (ffprobe_run probe_broken_env)
               fresh_registry) <> inr 0%Q
  /\ final (process_video_task float_plain probe_broken_env "12345678"
              sample_audio_path DEFAULT_COVER sample_output_path fresh_registry)
       !! "12345678"
     = Some (mkTask failed 20 None
               (Some "[Errno 2] No such file or directory: 'ffprobe'")).
Proof.
  split; [reflexivity |]. split; [reflexivity |]. split; [discriminate |].
  vm_compute. reflexivity.
Qed.

(** C9, a download handled while the job is between the writes of lines
    131 and 133: the steady run writes a registry in which the task is
    completed and has no output file yet; on it [download_video] passes the
    status check, raises TypeError at the join of line 235, and the request
    is answered 500 instead of 400, 404 or the file. *)
Theorem download_in_finalization_window :
  writes (process_video_task float_plain steady_env "12345678"
            sample_audio_path DEFAULT_COVER sample_output_path fresh_registry)
    !! 5%nat = Some window_registry
  /\ tasks (mkWorld window_registry sample_disk_files []) !! "12345678"
     = Some (mkTask completed 55 None None)
  /\ download_video "12345678" (mkWorld window_registry sample_disk_files [])
     = Uncaught (TypeError "unsupported operand type(s) for /")
  /\ status_code (download_video "12345678"
                    (mkWorld window_registry sample_disk_files [])) = 500.
Proof.
  split; [vm_compute; reflexivity |]. split; [reflexivity |].
  split; [vm_compute; reflexivity |]. vm_compute. reflexivity.
Qed.

Lemma sample_audio_allowed : has_extension_in ALLOWED_AUDIO "a.mp3".
Proof. apply allowed_audio_spec. vm_compute. reflexivity. Qed.

Lemma sample_text_refused : ~ has_extension_in ALLOWED_AUDIO "notes.txt".
Proof. intros H. apply allowed_audio_spec in H. vm_compute in H. discriminate. Qed.

Lemma sample_cover_allowed : has_extension_in ALLOWED_IMAGE "cover.JPG".
Proof. apply allowed_image_spec. vm_compute. reflexivity. Qed.

(** C1 on the steady run: exit code 0 completes the task. *)
Lemma finalized_by_exit_code_witness :
  fresh_registry !! "12345678" = Some (mkTask queued 0 None None)
  /\ popen steady_env = inr steady_process
  /\ ffprobe_run steady_env = inr (line "8.000000")
  /\ stdout_error steady_process = None
  /\ exists t',
       final (create_video_with_waveform float_plain steady_env DEFAULT_COVER
                sample_audio_path sample_output_path "12345678" fresh_registry)
         !! "12345678" = Some t'
       /\ status t' = completed
       /\ progress t' = 100
       /\ output_file t' = Some "12345678_video.mp4".
Proof.
  repeat (split; [reflexivity |]).
  destruct (finalized_by_exit_code float_plain steady_env DEFAULT_COVER
              sample_audio_path sample_output_path "12345678" fresh_registry
              (mkTask queued 0 None None) steady_process (line "8.000000")
              eq_refl eq_refl eq_refl eq_refl) as [H _].
  destruct (H eq_refl) as [_ H']. exact H'.
Defined.


(** C3 on the steady run. *)
Lemma progress_nondecreasing_witness :
  fresh_registry !! "12345678" = Some (mkTask queued 0 None None)
  /\ timestamps (stdout_lines steady_process) = [2000000; 4000000]
  /\ progress_monotone "12345678"
       (observable (process_video_task float_plain steady_env "12345678"
                      sample_audio_path DEFAULT_COVER sample_output_path)
                   fresh_registry).
Proof.
  split; [reflexivity |]. split; [vm_compute; reflexivity |].
  apply (progress_nondecreasing float_plain "12345678" steady_env).
  - reflexivity.
  - intros process [= <-].
    assert (E : timestamps (stdout_lines steady_process) = [2000000; 4000000])
      by (vm_compute; reflexivity).
    rewrite E. split.
    + repeat constructor; lia.
    + repeat constructor; lia.
Defined.

(** C4 on two submissions with different leading digits. *)
Lemma task_ids_distinct_witness :
  NoDup (map (fun sub => leading32 (sub_random sub))
             [first_submission; third_submission])
  /\ Forall2 (accepted keep_name) [first_submission; third_submission]
             ["12345678"; "9abcdef0"]
  /\ NoDup ["12345678"; "9abcdef0"].
Proof.
  assert (Hnd : NoDup (map (fun sub => leading32 (sub_random sub))
                           [first_submission; third_submission])).
  { vm_compute. apply NoDup_cons. split; [| apply NoDup_singleton].
    intros H. apply list_elem_of_singleton in H. discriminate. }
  assert (Hacc : Forall2 (accepted keep_name) [first_submission; third_submission]
                         ["12345678"; "9abcdef0"]).
  { constructor; [| constructor; [| constructor]].
    - exists "开始处理". vm_compute. reflexivity.
    - exists "开始处理". vm_compute. reflexivity. }
  split; [exact Hnd |]. split; [exact Hacc |].
  exact (task_ids_distinct keep_name _ _ Hnd Hacc).
Defined.

(** C5 on a text file sent as audio. *)
Lemma invalid_audio_rejected_witness :
  ~ has_extension_in ALLOWED_AUDIO "notes.txt"
  /\ exists msg,
       upload_files keep_name 7 (mkRequest (Some (mkFile "notes.txt" "hello")) None)
         sample_world = (sample_world, JsonError 400 msg)
       /\ tasks (fst (upload_files keep_name 7
                        (mkRequest (Some (mkFile "notes.txt" "hello")) None)
                        sample_world)) = tasks sample_world.
Proof.
  split; [exact sample_text_refused |].
  apply invalid_audio_rejected. right.
  exists (mkFile "notes.txt" "hello"). split; [reflexivity |].
  right. exact sample_text_refused.
Defined.

(** C6 on a submission with a JPG cover. *)
Lemma cover_selection_witness :
  has_extension_in ALLOWED_AUDIO "a.mp3"
  /\ has_extension_in ALLOWED_IMAGE "cover.JPG"
  /\ files (fst (upload_files keep_name (sub_random first_submission)
                   (mkRequest (Some (mkFile "a.mp3" "A"))
                              (Some (mkFile "cover.JPG" "J")))
                   bare_world))
       !! path_join UPLOAD_FOLDER "12345678_cover.JPG" = Some "J".
Proof.
  split; [exact sample_audio_allowed |]. split; [exact sample_cover_allowed |].
  destruct (cover_selection keep_name (sub_random first_submission)
              (mkRequest (Some (mkFile "a.mp3" "A")) (Some (mkFile "cover.JPG" "J")))
              bare_world (mkFile "a.mp3" "A") eq_refl sample_audio_allowed)
    as [H _].
  destruct (H (mkFile "cover.JPG" "J") eq_refl sample_cover_allowed) as [Hf _].
  exact Hf.
Defined.

(** X21 on a run where ffprobe prints no number. *)
Lemma unknown_duration_keeps_floor_witness :
  fresh_registry !! "12345678" = Some (mkTask queued 0 None None)
  /\ popen unknown_env = inr failing_process
  /\ ffprobe_run unknown_env = inr (line "N/A")
  /\ for_each (stdout_lines failing_process) (on_line 0 "12345678")
       (<["12345678" := mkTask processing 20 None None]> fresh_registry)
     = mkOutcome [] (<["12345678" := mkTask processing 20 None None]> fresh_registry)
                 (inr tt).
Proof.
  repeat (split; [reflexivity |]).
  destruct (unknown_duration_keeps_floor float_plain unknown_env DEFAULT_COVER
              sample_audio_path sample_output_path "12345678" fresh_registry
              (mkTask queued 0 None None) failing_process (line "N/A")
              eq_refl eq_refl eq_refl) as [_ [_ H]].
  destruct (H 0%Q) as [_ [Hloop _]].
  - vm_compute. reflexivity.
  - reflexivity.
  - exact Hloop.
Defined.

(** C8 on a run where ffmpeg cannot be started. *)
Lemma exception_marks_failed_witness :
  fresh_registry !! "12345678" = Some (mkTask queued 0 None None)
  /\ result (create_video_with_waveform float_plain broken_env DEFAULT_COVER
               sample_audio_path sample_output_path "12345678" fresh_registry)
     = inl (OSError "[Errno 2] No such file or directory: 'ffmpeg'")
  /\ exists t',
       final (process_video_task float_plain broken_env "12345678"
                sample_audio_path DEFAULT_COVER sample_output_path fresh_registry)
         !! "12345678" = Some t'
       /\ status t' = failed
       /\ error t' = Some "[Errno 2] No such file or directory: 'ffmpeg'".
Proof.
  split; [reflexivity |]. split; [vm_compute; reflexivity |].
  destruct (exception_marks_failed float_plain broken_env "12345678"
              sample_audio_path DEFAULT_COVER sample_output_path fresh_registry
              (mkTask queued 0 None None)
              (OSError "[Errno 2] No such file or directory: 'ffmpeg'"))
    as [_ [_ [t' [H1 [H2 [H3 _]]]]]].
  - reflexivity.
  - vm_compute. reflexivity.
  - exists t'. auto.
Defined.

(** X20 on a finished task: the video is sent under its stored name. *)
Lemma download_cases_witness :
  download_video "12345678" finished_world
  = SendFile sample_output_path true "12345678_video.mp4"
  /\ status_code (download_video "0badc0de" finished_world) = 404.
Proof.
  destruct (download_cases "12345678" finished_world) as [_ [_ [_ H]]].
  destruct (download_cases "0badc0de" finished_world) as [H' _].
  split.
  - apply (H (mkTask completed 100 (Some "12345678_video.mp4") None)).
    + reflexivity.
    + reflexivity.
    + reflexivity.
    + vm_compute. eauto.
  - apply H'. reflexivity.
Defined.

(** C10 on a submission without cover where no default asset exists. *)
Lemma audio_saved_before_cover_rejection_witness :
  has_extension_in ALLOWED_AUDIO "a.mp3"
  /\ files bare_world !! DEFAULT_COVER = None
  /\ files (fst (upload_files keep_name (sub_random first_submission)
                   (mkRequest (Some (mkFile "a.mp3" "A")) None) bare_world))
       !! path_join UPLOAD_FOLDER "12345678_a.mp3" = Some "A"
  /\ tasks (fst (upload_files keep_name (sub_random first_submission)
                   (mkRequest (Some (mkFile "a.mp3" "A")) None) bare_world))
     = tasks bare_world.
Proof.
  split; [exact sample_audio_allowed |]. split; [reflexivity |].
  destruct (audio_saved_before_cover_rejection keep_name
              (sub_random first_submission)
              (mkRequest (Some (mkFile "a.mp3" "A")) None) bare_world
              (mkFile "a.mp3" "A") eq_refl sample_audio_allowed
              (or_introl eq_refl) eq_refl) as [_ [_ [Hf [Ht _]]]].
  split; [exact Hf | exact Ht].
Defined.

(** * Further properties of app.py *)

(** ** What a job may change *)

Lemma maintains_ret {A} P (a : A) : maintains P (ret a).
Proof. intros s H. split; [constructor | exact H]. Qed.

Lemma maintains_raise {A} P e : maintains P (@raise A e).
Proof. intros s H. split; [constructor | exact H]. Qed.

Lemma maintains_lift {A} P (r : py_exception + A) : maintains P (lift r).
Proof. destruct r; [apply maintains_raise | apply maintains_ret]. Qed.

Lemma maintains_bind {A B} P (m : Job A) (k : A -> Job B) :
  maintains P m -> (forall a, maintains P (k a)) -> maintains P (bind m k).
Proof.
  intros Hm Hk s H. destruct (Hm s H) as [Hw Hf]. unfold bind.
  destruct (result (m s)) as [e|a]; simpl; [split; assumption |].
  destruct (Hk a _ Hf) as [Hw' Hf']. split; [| exact Hf'].
  apply Forall_app. split; assumption.
Qed.

Lemma maintains_try_except {A} P (m : Job A) h :
  maintains P m -> (forall e, maintains P (h e)) -> maintains P (try_except m h).
Proof.
  intros Hm Hh s H. destruct (Hm s H) as [Hw Hf]. unfold try_except.
  destruct (result (m s)) as [e|a]; simpl; [| split; assumption].
  destruct (Hh e _ Hf) as [Hw' Hf']. split; [| exact Hf'].
  apply Forall_app. split; assumption.
Qed.

Lemma maintains_for_each {A} P (xs : list A) body :
  (forall x, maintains P (body x)) -> maintains P (for_each xs body).
Proof.
  intros Hb. induction xs as [|x xs IH]; simpl.
  - apply maintains_ret.
  - apply maintains_bind; [apply Hb | intros _; exact IH].
Qed.

Lemma maintains_assign task_id P f :
  stable task_id P -> JobUpdate f -> maintains P (assign task_id f).
Proof.
  intros Hst Hf s H. unfold assign.
  destruct (s !! task_id) as [t|] eqn:Ht; simpl.
  - split; [constructor; [| constructor] |]; apply Hst; assumption.
  - split; [constructor | exact H].
Qed.

Lemma maintains_on_line task_id P duration line :
  stable task_id P -> maintains P (on_line duration task_id line).
Proof.
  intros Hst s H. rewrite on_line_eq.
  destruct (event_time line) as [tm|]; [destruct (gt0 duration) |];
    try (split; [constructor | exact H]).
  destruct (s !! task_id) as [t|] eqn:Ht; [| split; [constructor | exact H]].
  assert (P (<[task_id := set_progress (progress_of tm duration) t]> s)).
  { apply Hst; [| assumption | assumption].
    constructor. pose proof (progress_of_upper tm duration). lia. }
  simpl. split; [constructor; [assumption | constructor] | assumption].
Qed.

Lemma maintains_finalize task_id P process output_path :
  stable task_id P -> maintains P (finalize process output_path task_id).
Proof.
  intros Hst. unfold finalize. destruct (returncode process =? 0);
    repeat (apply maintains_bind; [| intros ?]);
    try apply maintains_ret; try apply maintains_lift;
    apply maintains_assign; try assumption; constructor; lia.
Qed.

Lemma maintains_process_video_task py_float env task_id P
    audio_path cover_path output_path :
  stable task_id P ->
  maintains P (process_video_task py_float env task_id audio_path cover_path output_path).
Proof.
  intros Hst. unfold process_video_task.
  apply maintains_try_except.
  - apply maintains_bind; [| intros _; apply maintains_ret].
    unfold create_video_with_waveform, drive_process, get_audio_duration, read_progress.
    repeat (apply maintains_bind; [| intros ?]);
      try apply maintains_ret; try apply maintains_lift;
      try (apply maintains_assign; [assumption | constructor; lia]).
    + apply maintains_for_each. intros line. apply maintains_on_line, Hst.
    + destruct (stdout_error _); [apply maintains_raise | apply maintains_ret].
    + apply maintains_finalize, Hst.
  - intros e. apply maintains_bind; [| intros _];
      apply maintains_assign; try assumption; constructor.
Qed.

(** X1. A job writes only to the record of its own task: the record of
    every other task id is, in each registry the job writes and in the one
    it leaves, what it was when the job started. *)
Theorem job_leaves_other_tasks (py_float : string -> option Q) (env : Env)
    (task_id audio_path cover_path output_path other : string)
    (s : gmap string Task) :
  other <> task_id ->
  let o := process_video_task py_float env task_id audio_path cover_path output_path s in
  Forall (fun s' => s' !! other = s !! other) (writes o)
  /\ final o !! other = s !! other.
Proof.
  intros Hne o. subst o.
  apply (maintains_process_video_task py_float env task_id
           (fun s' => s' !! other = s !! other)); [| reflexivity].
  intros f s' t _ H Ht. rewrite lookup_insert_ne; [exact H | congruence].
Qed.

(** X2. From a record whose progress is at most 100, every registry the
    job writes holds the record of the task with a progress of at most 100,
    whatever ffmpeg reports. *)
Theorem job_progress_at_most_100 (py_float : string -> option Q) (env : Env)
    (task_id audio_path cover_path output_path : string)
    (s : gmap string Task) (t : Task) :
  s !! task_id = Some t ->
  progress t <= 100 ->
  let o := process_video_task py_float env task_id audio_path cover_path output_path s in
  Forall (fun s' => exists t', s' !! task_id = Some t' /\ progress t' <= 100) (writes o)
  /\ exists t', final o !! task_id = Some t' /\ progress t' <= 100.
Proof.
  intros Hs Hp o. subst o.
  apply (maintains_process_video_task py_float env task_id
           (fun s' => exists t', s' !! task_id = Some t' /\ progress t' <= 100));
    [| eauto].
  intros f s' t0 Hf [t' [Ht' Hle]] Ht0. rewrite lookup_insert_eq.
  exists (f t0). split; [reflexivity |].
  assert (t0 = t') by congruence. subst t0.
  destruct Hf; simpl; lia.
Qed.

(** ** How a job ends *)

Section JobEnd.

Variable py_float : string -> option Q.

(** The handler of [process_video_task] on an exception of the
    orchestration. *)
Lemma process_video_task_caught env task_id audio_path cover_path output_path s e t1 :
  result (create_video_with_waveform py_float env
            cover_path audio_path output_path task_id s) = inl e ->
  final (create_video_with_waveform py_float env
           cover_path audio_path output_path task_id s) !! task_id = Some t1 ->
  let o := process_video_task py_float env task_id audio_path cover_path output_path s in
  result o = inr tt
  /\ final o !! task_id
     = Some (mkTask failed (progress t1) (output_file t1) (Some (str_exception e))).
Proof.
  intros He Ht1 o. subst o. unfold process_video_task, try_except.
  rewrite (bind_inl _ _ _ _ He). simpl.
  rewrite (bind_assign _ _ _ _ _ Ht1). simpl.
  rewrite (assign_run _ _ _ (set_status failed t1)) by apply lookup_insert_eq.
  simpl. rewrite lookup_insert_eq. split; reflexivity.
Qed.

Lemma process_video_task_returned env task_id audio_path cover_path output_path s b :
  result (create_video_with_waveform py_float env
            cover_path audio_path output_path task_id s) = inr b ->
  let o := process_video_task py_float env task_id audio_path cover_path output_path s in
  result o = inr tt
  /\ final o = final (create_video_with_waveform py_float env
                        cover_path audio_path output_path task_id s).
Proof.
  intros Hb o. subst o. unfold process_video_task, try_except.
  rewrite (bind_inr _ _ _ _ Hb). unfold ret. simpl. split; reflexivity.
Qed.

(** What [create_video_with_waveform] returns or raises, and the record it
    leaves, along each of its paths. *)
Lemma create_video_end env cover_path audio_path output_path task_id s t :
  s !! task_id = Some t ->
  let o := create_video_with_waveform py_float env
             cover_path audio_path output_path task_id s in
  exists p,
    let running := mkTask processing p (output_file t) (error t) in
    match popen env with
    | inl e => result o = inl e /\ final o !! task_id = Some running
    | inr process =>
        match ffprobe_run env with
        | inl e => result o = inl e /\ final o !! task_id = Some running
        | inr _ =>
            match stdout_error process with
            | Some e => result o = inl e /\ final o !! task_id = Some running
            | None =>
                if returncode process =? 0 then
                  result o = inr true
                  /\ final o !! task_id
                     = Some (mkTask completed 100 (Some (path_name output_path)) (error t))
                else
                  match stderr_read process with
                  | inr err =>
                      result o = inr false
                      /\ final o !! task_id
                         = Some (mkTask failed p (output_file t) (Some err))
                  | inl e =>
                      result o = inl e
                      /\ final o !! task_id
                         = Some (mkTask failed p (output_file t) (error t))
                  end
            end
        end
    end.
Proof.
  intros Hs o. subst o. rewrite (create_video_run _ _ _ _ _ _ _ _ Hs). simpl.
  set (t20 := set_progress 20 (set_status processing t)).
  set (s20 := <[task_id := t20]> s).
  assert (H20 : s20 !! task_id = Some t20) by apply lookup_insert_eq.
  destruct (popen env) as [e|process] eqn:Hp.
  { exists 20. unfold drive_process. rewrite Hp. simpl. split; [reflexivity | exact H20]. }
  destruct (ffprobe_run env) as [e|out] eqn:Hf.
  { exists 20. unfold drive_process, get_audio_duration. rewrite Hp, Hf. simpl.
    split; [reflexivity | exact H20]. }
  rewrite (drive_process_run _ _ _ _ _ _ _ Hp Hf).
  set (duration := match py_float (PyStr.strip out) with
                   | Some d => d | None => 0%Q end).
  destruct (loop_final duration task_id (stdout_lines process) s20 t20 H20)
    as [Hr [p Hfin]].
  exists p. cbv zeta.
  set (loop := for_each (stdout_lines process) (on_line duration task_id)) in *.
  assert (Hpres : final (loop s20) !! task_id = Some (set_progress p t20)).
  { rewrite Hfin. apply lookup_insert_eq. }
  unfold read_progress. fold loop.
  destruct (stdout_error process) as [e|].
  { assert (Hread : result ((loop ;; @raise unit e) s20) = inl e
                    /\ final ((loop ;; @raise unit e) s20) = final (loop s20)).
    { rewrite (bind_inr _ _ _ _ Hr). simpl. split; reflexivity. }
    destruct Hread as [Hr1 Hr2].
    rewrite (bind_inl _ _ _ _ Hr1). simpl. rewrite Hr2.
    split; [reflexivity | exact Hpres]. }
  assert (Hread : (loop ;; ret tt) s20
                  = mkOutcome (writes (loop s20)) (final (loop s20)) (inr tt)).
  { rewrite (bind_inr _ _ _ _ Hr). unfold ret. simpl.
    rewrite app_nil_r. reflexivity. }
  rewrite (bind_inr _ _ s20 tt) by (rewrite Hread; reflexivity).
  rewrite Hread. simpl.
  destruct (returncode process =? 0) eqn:Hrc.
  - apply Z.eqb_eq in Hrc.
    rewrite (finalize_success _ _ _ _ _ Hpres Hrc). simpl.
    split; [reflexivity | apply lookup_insert_eq].
  - apply Z.eqb_neq in Hrc. destruct (stderr_read process) as [e|err] eqn:Herr.
    + rewrite (finalize_stderr_raises _ _ _ _ _ _ Hpres Hrc Herr). simpl.
      split; [reflexivity | apply lookup_insert_eq].
    + rewrite (finalize_failure _ _ _ _ _ _ Hpres Hrc Herr). simpl.
      split; [reflexivity | apply lookup_insert_eq].
Qed.

(** X3. The record a job leaves when its thread ends: for a subprocess
    that ends and an existing record, the record is completed or failed. It
    is completed exactly when ffmpeg was started, ffprobe was run, the
    progress stream was read to its end and the exit code is 0; a completed
    record has progress 100 and the name of the output path as output file,
    with the error it had; a failed record has an error text, with the
    output file it had. *)
Theorem job_ends_terminal (env : Env)
    (task_id audio_path cover_path output_path : string)
    (s : gmap string Task) (t : Task) :
  s !! task_id = Some t ->
  let o := process_video_task py_float env task_id audio_path cover_path output_path s in
  exists t', final o !! task_id = Some t'
    /\ (status t' = completed \/ status t' = failed)
    /\ (status t' = completed <->
        exists process out,
          popen env = inr process /\ ffprobe_run env = inr out
          /\ stdout_error process = None /\ returncode process = 0)
    /\ (status t' = completed ->
        progress t' = 100
        /\ output_file t' = Some (path_name output_path)
        /\ error t' = error t)
    /\ (status t' = failed ->
        is_Some (error t') /\ output_file t' = output_file t).
Proof.
  intros Hs o. subst o.
  destruct (create_video_end env cover_path audio_path output_path task_id s t Hs)
    as [p Hend]. cbv zeta in Hend.
  assert (Hcaught : forall e t1,
    result (create_video_with_waveform py_float env
              cover_path audio_path output_path task_id s) = inl e ->
    final (create_video_with_waveform py_float env
             cover_path audio_path output_path task_id s) !! task_id = Some t1 ->
    output_file t1 = output_file t ->
    (forall process out, popen env = inr process -> ffprobe_run env = inr out ->
       stdout_error process = None -> returncode process = 0 -> False) ->
    exists t',
      final (process_video_task py_float env task_id
               audio_path cover_path output_path s) !! task_id = Some t'
      /\ (status t' = completed \/ status t' = failed)
      /\ (status t' = completed <->
          exists process out,
            popen env = inr process /\ ffprobe_run env = inr out
            /\ stdout_error process = None /\ returncode process = 0)
      /\ (status t' = completed ->
          progress t' = 100
          /\ output_file t' = Some (path_name output_path)
          /\ error t' = error t)
      /\ (status t' = failed ->
          is_Some (error t') /\ output_file t' = output_file t)).
  { intros e t1 He Ht1 Hout Hno.
    destruct (process_video_task_caught _ _ _ _ _ _ _ _ He Ht1) as [_ Hf].
    eexists. split; [exact Hf |]. simpl.
    split; [right; reflexivity |]. split; [| split].
    - split; [discriminate |]. intros [process [out [H1 [H2 [H3 H4]]]]].
      exfalso. eapply Hno; eassumption.
    - discriminate.
    - intros _. split; [eauto | exact Hout]. }
  destruct (popen env) as [e|process] eqn:Hp.
  { destruct Hend as [He Ht1]. apply (Hcaught e _ He Ht1); [reflexivity |].
    intros ? ? [=]. }
  destruct (ffprobe_run env) as [e|out] eqn:Hf.
  { destruct Hend as [He Ht1]. apply (Hcaught e _ He Ht1); [reflexivity |].
    intros ? ? _ [=]. }
  destruct (stdout_error process) as [e|] eqn:Herr.
  { destruct Hend as [He Ht1]. apply (Hcaught e _ He Ht1); [reflexivity |].
    intros ? ? [= <-] _ H. congruence. }
  destruct (returncode process =? 0) eqn:Hrc.
  - destruct Hend as [Hb Ht1].
    destruct (process_video_task_returned _ _ _ _ _ _ _ Hb) as [_ Hfin].
    rewrite Hfin. eexists. split; [exact Ht1 |]. simpl.
    split; [left; reflexivity |]. split; [| split].
    + split; [| reflexivity]. intros _. exists process, out.
      apply Z.eqb_eq in Hrc. auto.
    + intros _. auto.
    + discriminate.
  - apply Z.eqb_neq in Hrc. destruct (stderr_read process) as [e|err] eqn:Hse.
    + destruct Hend as [He Ht1].
      apply (Hcaught e _ He Ht1); [reflexivity |].
      intros ? ? [= <-] _ _ H. congruence.
    + destruct Hend as [Hb Ht1].
      destruct (process_video_task_returned _ _ _ _ _ _ _ Hb) as [_ Hfin].
      rewrite Hfin. eexists. split; [exact Ht1 |]. simpl.
      split; [right; reflexivity |]. split; [| split].
      * split; [discriminate |]. intros [process' [out' [H1 [_ [_ H4]]]]].
        congruence.
      * discriminate.
      * intros _. split; [eauto | reflexivity].
Qed.

End JobEnd.

(** ** Reading the progress channel *)

(** X4. Handling a line of the progress channel never raises, whatever the
    line, the duration and the registry (even without the record of the
    task); a line that carries no readable timestamp, and any line when the
    duration is not positive, leaves the registry as it is and writes
    nothing. *)
Theorem progress_line_never_raises (duration : Q) (task_id line : string)
    (s : gmap string Task) :
  let o := on_line duration task_id line s in
  result o = inr tt
  /\ (length (writes o) <= 1)%nat
  /\ (event_time line = None \/ ~ (0 < duration)%Q ->
      writes o = [] /\ final o = s).
Proof.
  intros o. subst o. rewrite on_line_eq.
  destruct (event_time line) as [tm|] eqn:Hev.
  - destruct (gt0 duration) eqn:Hgt.
    + destruct (s !! task_id); simpl; (split; [reflexivity |]); (split; [lia |]);
        intros [H | H]; try discriminate;
        exfalso; apply H, gt0_true, Hgt.
    + simpl. repeat split; lia.
  - simpl. repeat split; lia.
Qed.


(** ** Task identifiers and paths *)

Lemma contains_char_append c (x y : string) :
  PyStr.contains_char c (x +:+ y)
  = PyStr.contains_char c x || PyStr.contains_char c y.
Proof.
  induction x as [|a x IH]; [reflexivity |].
  rewrite UuidFacts.append_cons. simpl. destruct (Ascii.eqb a c); [reflexivity | exact IH].
Qed.

Lemma hex_digit_is_hex (d : N) :
  PyStr.contains_char (Uuid.hex_digit d) "0123456789abcdef" = true.
Proof.
  unfold Uuid.hex_digit. generalize (N.to_nat d). intros n.
  do 16 (destruct n as [|n]; [reflexivity |]). reflexivity.
Qed.

Lemma hex_aux_is_hex k : forall n c,
  PyStr.contains_char c (Uuid.hex_aux k n EmptyString) = true ->
  PyStr.contains_char c "0123456789abcdef" = true.
Proof.
  induction k as [|k IH]; intros n c H; [discriminate |].
  rewrite UuidFacts.hex_aux_S, contains_char_append in H.
  apply orb_true_iff in H as [H | H]; [exact (IH _ _ H) |].
  simpl in H. destruct (Ascii.eqb (Uuid.hex_digit (n mod 16)) c) eqn:E; [| discriminate].
  apply Ascii.eqb_eq in E. subst c. apply hex_digit_is_hex.
Qed.

(** X5. A task id is made of exactly eight characters, each a lower-case
    hexadecimal digit. *)
Theorem task_id_shape (random : N) :
  String.length (new_task_id random) = 8%nat
  /\ forall c, PyStr.contains_char c (new_task_id random) = true ->
       PyStr.contains_char c "0123456789abcdef" = true.
Proof.
  rewrite new_task_id_leading. split.
  - apply UuidFacts.hex_aux_length.
  - apply hex_aux_is_hex.
Qed.

Lemma new_task_id_no_slash random :
  PyStr.contains_char "/"%char (new_task_id random) = false.
Proof.
  destruct (PyStr.contains_char "/"%char (new_task_id random)) eqn:E; [| reflexivity].
  rewrite new_task_id_leading in E. apply hex_aux_is_hex in E. discriminate.
Qed.

(** The last component of [folder / name] is [name] when [name] holds no
    slash. *)
Lemma path_name_join folder name :
  PyStr.contains_char "/"%char name = false ->
  path_name (path_join folder name) = name.
Proof.
  intros H. unfold path_name, path_join.
  assert (E : PyStr.after_last "/"%char (folder +:+ "/" +:+ name) = Some name).
  { apply after_last_spec. exists folder. split; [reflexivity | exact H]. }
  rewrite E. reflexivity.
Qed.

Lemma output_name_no_slash random :
  PyStr.contains_char "/"%char (new_task_id random +:+ "_video.mp4") = false.
Proof.
  rewrite contains_char_append, new_task_id_no_slash. reflexivity.
Qed.

(** ** Submission, status and download together *)

Section Service.

Variable secure_filename : string -> string.
Variable py_float : string -> option Q.

(** What an accepted submission leaves. *)
Lemma accepted_world (random : N) (req : Request) (w w' : World)
    (task_id msg : string) :
  upload_files secure_filename random req w = (w', JsonAccepted task_id msg) ->
  task_id = new_task_id random
  /\ tasks w' = <[task_id := mkTask queued 0 None None]> (tasks w)
  /\ exists audio_path cover_path,
       threads w' = threads w ++
         [mkJobArgs task_id audio_path cover_path
            (path_join OUTPUT_FOLDER (task_id +:+ "_video.mp4"))].
Proof.
  unfold upload_files, start_task. intros H.
  destruct (audio req) as [a|]; [| discriminate].
  destruct (String.eqb (filename a) ""); [discriminate |].
  destruct (negb (allowed_audio (filename a))); [discriminate |].
  destruct (cover_accepted (cover req)).
  - injection H as <- <- _. simpl. split; [reflexivity |].
    split; [reflexivity |]. eexists _, _. reflexivity.
  - destruct (exists_ DEFAULT_COVER _); [| discriminate].
    injection H as <- <- _. simpl. split; [reflexivity |].
    split; [reflexivity |]. eexists _, _. reflexivity.
Qed.


(** X7. A submission never removes a stored file, changes no file outside
    the two upload paths named after its task id, leaves the record of
    every other task id alone, and starts at most one thread after those
    already started. *)
Theorem upload_footprint (random : N) (req : Request) (w : World) :
  let w' := fst (upload_files secure_filename random req w) in
  let task_id := new_task_id random in
  (forall path, is_Some (files w !! path) -> is_Some (files w' !! path))
  /\ (forall path, files w' !! path <> files w !! path ->
        exists f, (audio req = Some f \/ cover req = Some f)
          /\ path = path_join UPLOAD_FOLDER
                      (secure_filename (task_id +:+ "_" +:+ filename f)))
  /\ (forall other, other <> task_id -> tasks w' !! other = tasks w !! other)
  /\ exists started, threads w' = threads w ++ started /\ (length started <= 1)%nat.
Proof.
  intros w' task_id. subst w'. unfold upload_files, start_task.
  assert (Hsame : (forall path, is_Some (files w !! path) -> is_Some (files w !! path))
    /\ (forall path, files w !! path <> files w !! path ->
          exists f, (audio req = Some f \/ cover req = Some f)
            /\ path = path_join UPLOAD_FOLDER
                        (secure_filename (task_id +:+ "_" +:+ filename f)))
    /\ (forall other, other <> task_id -> tasks w !! other = tasks w !! other)
    /\ exists started, threads w = threads w ++ started /\ (length started <= 1)%nat).
  { split; [auto |]. split; [congruence |]. split; [auto |].
    exists []. rewrite app_nil_r. split; [reflexivity | simpl; lia]. }
  destruct (audio req) as [a|] eqn:Ha; [| exact Hsame].
  destruct (String.eqb (filename a) ""); [exact Hsame |].
  destruct (negb (allowed_audio (filename a))); [exact Hsame |].
  fold task_id.
  set (audio_path := path_join UPLOAD_FOLDER
                       (secure_filename (task_id +:+ "_" +:+ filename a))).
  assert (Hkeep1 : forall path, is_Some (files w !! path) ->
            is_Some (<[audio_path := content a]> (files w) !! path)).
  { intros path Hp. destruct (decide (audio_path = path)) as [<- | Hne].
    - rewrite lookup_insert_eq. eauto.
    - rewrite lookup_insert_ne by exact Hne. exact Hp. }
  assert (Hch1 : forall path,
            <[audio_path := content a]> (files w) !! path <> files w !! path ->
            path = audio_path).
  { intros path Hp. destruct (decide (audio_path = path)) as [<- | Hne]; [reflexivity |].
    rewrite lookup_insert_ne in Hp by exact Hne. congruence. }
  destruct (cover_accepted (cover req)) as [c|] eqn:Hc.
  - assert (Hcov : cover req = Some c).
    { unfold cover_accepted in Hc. destruct (cover req) as [c'|]; [| discriminate].
      destruct (_ && _); [congruence | discriminate]. }
    simpl.
    set (cover_path := path_join UPLOAD_FOLDER
                         (secure_filename (task_id +:+ "_" +:+ filename c))).
    split; [| split; [| split]].
    + intros path Hp. destruct (decide (cover_path = path)) as [<- | Hne].
      * rewrite lookup_insert_eq. eauto.
      * rewrite lookup_insert_ne by exact Hne. apply Hkeep1, Hp.
    + intros path Hp. destruct (decide (cover_path = path)) as [<- | Hne].
      * exists c. split; [right; exact Hcov | reflexivity].
      * rewrite lookup_insert_ne in Hp by exact Hne.
        exists a. split; [left; reflexivity | apply Hch1, Hp].
    + intros other Hne. rewrite lookup_insert_ne by congruence. reflexivity.
    + eexists. split; [reflexivity | simpl; lia].
  - destruct (exists_ DEFAULT_COVER _); simpl.
    + split; [exact Hkeep1 |]. split; [| split].
      * intros path Hp. exists a. split; [left; reflexivity | apply Hch1, Hp].
      * intros other Hne. rewrite lookup_insert_ne by congruence. reflexivity.
      * eexists. split; [reflexivity | simpl; lia].
    + split; [exact Hkeep1 |]. split; [| split].
      * intros path Hp. exists a. split; [left; reflexivity | apply Hch1, Hp].
      * auto.
      * exists []. rewrite app_nil_r. split; [reflexivity | simpl; lia].
Qed.

(** X8. Submission, job and download fit together: when the job started
    by an accepted submission runs to an exit code 0 and the file exists at
    the output path the job was given, a download of the returned id sends
    that very file, named after the task id. *)
Theorem submitted_video_downloadable (random : N) (req : Request) (w w' : World)
    (task_id msg : string) (env : Env) (process : Process) (out : string)
    (disk : gmap string string) (started : list JobArgs) :
  upload_files secure_filename random req w = (w', JsonAccepted task_id msg) ->
  popen env = inr process ->
  ffprobe_run env = inr out ->
  stdout_error process = None ->
  returncode process = 0 ->
  exists job,
    last (threads w') = Some job
    /\ job_task_id job = task_id
    /\ (is_Some (disk !! job_output_path job) ->
        download_video task_id
          (mkWorld (final (process_video_task py_float env (job_task_id job)
                             (job_audio_path job) (job_cover_path job)
                             (job_output_path job) (tasks w')))
                   disk started)
        = SendFile (job_output_path job) true (task_id +:+ "_video.mp4")).
Proof.
  intros Hup Hp Hf Herr Hrc.
  destruct (accepted_world _ _ _ _ _ _ Hup) as [Hid [Ht [ap [cp Hth]]]].
  eexists. split; [rewrite Hth, last_snoc; reflexivity |].
  split; [reflexivity |]. simpl. intros Hdisk.
  assert (Hrec : tasks w' !! task_id = Some (mkTask queued 0 None None))
    by (rewrite Ht; apply lookup_insert_eq).
  destruct (create_video_end py_float env cp ap
              (path_join OUTPUT_FOLDER (task_id +:+ "_video.mp4")) task_id
              (tasks w') _ Hrec) as [p Hend].
  cbv zeta in Hend. rewrite Hp, Hf, Herr, (proj2 (Z.eqb_eq _ _) Hrc) in Hend.
  destruct Hend as [Hb Hfin].
  destruct (process_video_task_returned py_float env task_id ap cp _ _ _ Hb)
    as [_ Hfin'].
  unfold download_video. simpl. rewrite Hfin', Hfin. simpl.
  rewrite path_name_join by (rewrite Hid; apply output_name_no_slash).
  unfold exists_. simpl. rewrite bool_decide_eq_true_2 by exact Hdisk.
  reflexivity.
Qed.

End Service.

(** ** The extension checks *)

Lemma after_last_append stem ext :
  PyStr.contains_char "."%char ext = false ->
  PyStr.after_last "."%char (stem +:+ "." +:+ ext) = Some ext.
Proof. intros H. apply after_last_spec. exists stem. split; [reflexivity | exact H]. Qed.

(** X9. Only the text after the last dot of a file name counts for the
    audio and image checks, and it counts in lower case: a name
    [stem.ext] with a dot-free [ext] passes exactly when the lower-cased
    [ext] is in the allow-list, whatever [stem] is; a name without a dot
    passes neither check. *)
Theorem extension_checks (stem ext f : string) :
  (PyStr.contains_char "."%char ext = false ->
     allowed_audio (stem +:+ "." +:+ ext)
     = bool_decide (PyStr.lower ext ∈ ALLOWED_AUDIO)
     /\ allowed_image (stem +:+ "." +:+ ext)
        = bool_decide (PyStr.lower ext ∈ ALLOWED_IMAGE))
  /\ (PyStr.contains_char "."%char f = false ->
        allowed_audio f = false /\ allowed_image f = false).
Proof.
  split.
  - intros H. unfold allowed_audio, allowed_image, PyStr.rsplit1.
    rewrite (after_last_append stem ext H). simpl.
    rewrite contains_char_append. simpl. rewrite orb_true_r. split; reflexivity.
  - intros H. unfold allowed_audio, allowed_image. rewrite H. split; reflexivity.
Qed.

(** X10. No file name passes both the audio check and the image check. *)
Theorem audio_and_image_exclusive (f : string) :
  allowed_audio f = true -> allowed_image f = false.
Proof.
  unfold allowed_audio, allowed_image. intros H.
  apply andb_true_iff in H as [Hc H]. rewrite Hc. simpl.
  destruct (PyStr.rsplit1 "."%char f !! 1%nat) as [ext|]; [| reflexivity].
  apply bool_decide_eq_true in H. apply bool_decide_eq_false.
  unfold ALLOWED_AUDIO in H. unfold ALLOWED_IMAGE.
  set_unfold. intros Himg.
  destruct H as [[[[[H | H] | H] | H] | H] | H]; rewrite H in Himg;
    destruct Himg as [[[G | G] | G] | G]; discriminate.
Qed.

(** ** The capability probe *)

Lemma string_of_rev_cons a cur :
  string_of_list_ascii (rev (a :: cur))
  = string_of_list_ascii (rev cur) +:+ String a EmptyString.
Proof.
  simpl. generalize (rev cur). intros l.
  induction l as [|b l IH]; [reflexivity |].
  simpl. rewrite IH. reflexivity.
Qed.

(** The first field of a split is the text before the first separator. *)
Lemma split_aux_head c v : forall cur rest,
  PyStr.contains_char c v = false ->
  PyStr.split_aux c cur (v +:+ String c rest)
  = (string_of_list_ascii (rev cur) +:+ v) :: PyStr.split_aux c [] rest.
Proof.
  induction v as [|a v IH]; intros cur rest H.
  - change (EmptyString +:+ String c rest) with (String c rest).
    simpl. rewrite Ascii.eqb_refl, UuidFacts.append_nil_r. reflexivity.
  - rewrite UuidFacts.append_cons. simpl in H |- *.
    destruct (Ascii.eqb a c); [discriminate |].
    rewrite (IH (a :: cur) rest H), string_of_rev_cons, UuidFacts.append_assoc.
    reflexivity.
Qed.

Lemma split_aux_whole c v : forall cur,
  PyStr.contains_char c v = false ->
  PyStr.split_aux c cur v = [string_of_list_ascii (rev cur) +:+ v].
Proof.
  induction v as [|a v IH]; intros cur H.
  - simpl. rewrite UuidFacts.append_nil_r. reflexivity.
  - simpl in H |- *. destruct (Ascii.eqb a c); [discriminate |].
    rewrite (IH (a :: cur) H), string_of_rev_cons, UuidFacts.append_assoc.
    reflexivity.
Qed.

(** A text has no [c], or a first [c]. *)
Lemma first_occurrence c s :
  PyStr.contains_char c s = false
  \/ exists v rest, s = v +:+ String c rest /\ PyStr.contains_char c v = false.
Proof.
  induction s as [|a s IH]; [left; reflexivity |].
  simpl. destruct (Ascii.eqb a c) eqn:E.
  - apply Ascii.eqb_eq in E. subst a. right. exists EmptyString, s.
    split; reflexivity.
  - destruct IH as [H | [v [rest [-> H]]]]; [left; exact H |].
    right. exists (String a v), rest. split; [reflexivity |].
    simpl. rewrite E. exact H.
Qed.

(** X11. The probe reports ffmpeg available exactly when [ffmpeg -version]
    could be run and exited with code 0, and the version it reports is then
    the first line of the output: it holds no line feed, and the output is
    that text alone or that text followed by a line feed and the rest. In
    every other case, an exception included, it reports not available. *)
Theorem check_ffmpeg_version (run : py_exception + CompletedProcess) (version : string) :
  check_ffmpeg run = Available version <->
  exists result,
    run = inr result
    /\ cp_returncode result = 0
    /\ PyStr.contains_char (ascii_of_nat 10) version = false
    /\ (cp_stdout result = version
        \/ exists rest,
             cp_stdout result = version +:+ String (ascii_of_nat 10) rest).
Proof.
  unfold check_ffmpeg. split.
  - destruct run as [e|result]; [discriminate |].
    destruct (cp_returncode result =? 0) eqn:Hrc; [| discriminate].
    apply Z.eqb_eq in Hrc. intros H. exists result.
    split; [reflexivity |]. split; [exact Hrc |].
    unfold PyStr.split in H.
    destruct (first_occurrence (ascii_of_nat 10) (cp_stdout result))
      as [Hn | [v [rest [Heq Hn]]]].
    + rewrite (split_aux_whole _ _ [] Hn) in H. simpl in H.
      injection H as <-. split; [exact Hn | left; reflexivity].
    + rewrite Heq, (split_aux_head _ _ [] rest Hn) in H. simpl in H.
      injection H as <-. split; [exact Hn |]. right. exists rest. exact Heq.
  - intros [result [-> [Hrc [Hn Hout]]]].
    rewrite (proj2 (Z.eqb_eq _ _) Hrc). unfold PyStr.split.
    destruct Hout as [-> | [rest ->]].
    + rewrite (split_aux_whole _ _ [] Hn). reflexivity.
    + rewrite (split_aux_head _ _ [] rest Hn). reflexivity.
Qed.

(** * Properties of main.py *)

Module CliFacts.
Import Cli.

Lemma endswith_nil suffix :
  endswith suffix EmptyString = String.eqb EmptyString suffix.
Proof. unfold endswith. apply orb_false_r. Qed.

Lemma endswith_cons suffix a s :
  endswith suffix (String a s) = String.eqb (String a s) suffix || endswith suffix s.
Proof. reflexivity. Qed.

Lemma endswith_spec suffix s :
  endswith suffix s = true <-> exists front, s = front +:+ suffix.
Proof.
  induction s as [|a s IH].
  - rewrite endswith_nil. split.
    + intros H. apply String.eqb_eq in H. subst. exists EmptyString. reflexivity.
    + intros [front H]. destruct front as [|b front].
      * change (EmptyString +:+ suffix) with suffix in H. subst.
        apply String.eqb_refl.
      * rewrite UuidFacts.append_cons in H. discriminate.
  - rewrite endswith_cons. split.
    + intros H. apply orb_true_iff in H as [H | H].
      * apply String.eqb_eq in H. exists EmptyString. exact H.
      * apply IH in H as [front ->]. exists (String a front). reflexivity.
    + intros [front H]. apply orb_true_iff. destruct front as [|b front].
      * left. change (EmptyString +:+ suffix) with suffix in H. rewrite <- H.
        apply String.eqb_refl.
      * right. rewrite UuidFacts.append_cons in H. injection H as _ H.
        apply IH. eauto.
Qed.

Lemma present_spec name entries : present name entries = true <-> name ∈ entries.
Proof. unfold present. apply bool_decide_eq_true. Qed.

Lemma glob_spec suffix entries name :
  name ∈ glob suffix entries <-> name ∈ entries /\ endswith suffix name = true.
Proof.
  unfold glob. rewrite !list_elem_of_In, filter_In. reflexivity.
Qed.

Lemma glob_nil suffix entries :
  glob suffix entries = [] <-> forall name, name ∈ entries -> endswith suffix name = false.
Proof.
  split.
  - intros H name Hin. destruct (endswith suffix name) eqn:E; [| reflexivity].
    assert (Hg : name ∈ glob suffix entries) by (apply glob_spec; auto).
    rewrite H in Hg. inversion Hg.
  - intros H. destruct (glob suffix entries) as [|x l] eqn:E; [reflexivity |].
    assert (Hg : x ∈ glob suffix entries) by (rewrite E; constructor).
    apply glob_spec in Hg as [Hin He]. rewrite (H x Hin) in He. discriminate.
Qed.

(** X12. Without a given cover, the cover chosen for an audio file is an
    entry of the cover folder: the same-stem .jpg if it exists, before the
    same-stem .jpeg and .png; and none is chosen exactly when the folder
    holds no same-stem .jpg, .jpeg or .png and no entry ending in .jpg or
    .png (an unrelated .jpeg is not taken). A given cover name is taken as
    it is. *)
Theorem cover_auto_selection (disk : Disk) (audio_file : string) :
  (forall c, select_cover disk audio_file None = Some c -> c ∈ cover_dir disk)
  /\ (stem audio_file +:+ ".jpg" ∈ cover_dir disk ->
      select_cover disk audio_file None = Some (stem audio_file +:+ ".jpg"))
  /\ (select_cover disk audio_file None = None <->
      (forall ext, ext ∈ [".jpg"; ".jpeg"; ".png"] ->
         stem audio_file +:+ ext ∉ cover_dir disk)
      /\ (forall name, name ∈ cover_dir disk ->
            endswith ".jpg" name = false /\ endswith ".png" name = false))
  /\ (forall c, select_cover disk audio_file (Some c) = Some c).
Proof.
  unfold select_cover. split; [| split; [| split]].
  - intros c.
    destruct (find _ _) as [ext|] eqn:Hfind.
    + intros [= <-]. apply find_some in Hfind as [_ H]. apply present_spec, H.
    + destruct (glob ".jpg" (cover_dir disk) ++ glob ".png" (cover_dir disk))
        as [|x l] eqn:E; [discriminate |].
      intros [= <-].
      assert (Hx : x ∈ glob ".jpg" (cover_dir disk) ++ glob ".png" (cover_dir disk))
        by (rewrite E; constructor).
      apply elem_of_app in Hx as [Hx | Hx]; apply glob_spec in Hx as [Hx _]; exact Hx.
  - intros H. simpl. rewrite (proj2 (present_spec _ _) H). reflexivity.
  - split.
    + intros H. destruct (find _ _) as [ext|] eqn:Hfind; [discriminate |].
      destruct (glob ".jpg" (cover_dir disk) ++ glob ".png" (cover_dir disk))
        as [|x l] eqn:E; [| discriminate].
      apply app_eq_nil in E as [E1 E2]. split.
      * intros ext Hext Hin.
        pose proof (find_none _ _ Hfind ext (proj1 (list_elem_of_In _ _) Hext)) as Hn.
        simpl in Hn. apply present_spec in Hin. congruence.
      * intros name Hin. split; [exact (proj1 (glob_nil _ _) E1 name Hin) |].
        exact (proj1 (glob_nil _ _) E2 name Hin).
    + intros [Hstem Hglob].
      destruct (find _ _) as [ext|] eqn:Hfind.
      * apply find_some in Hfind as [Hext Hp]. exfalso.
        apply (Hstem ext); [apply list_elem_of_In, Hext | apply present_spec, Hp].
      * assert (E1 : glob ".jpg" (cover_dir disk) = [])
          by (apply glob_nil; intros n Hn; apply (Hglob n Hn)).
        assert (E2 : glob ".png" (cover_dir disk) = [])
          by (apply glob_nil; intros n Hn; apply (Hglob n Hn)).
        rewrite E1, E2. reflexivity.
  - reflexivity.
Qed.

Section BatchFacts.

Variable py_float : string -> option Q.

(** X13. [process_podcast] returns True exactly when the audio entry
    exists, a cover is chosen and exists, the cover pass and the video pass
    both ran and exited with code 0, and ffprobe ran and printed a number. *)
Theorem process_podcast_true (disk : Disk) (tools : Tools)
    (audio_file : string) (cover_file : option string) :
  process_podcast py_float disk tools audio_file cover_file = inr true <->
  audio_file ∈ audio_dir disk
  /\ exists c,
       select_cover disk audio_file cover_file = Some c
       /\ c ∈ cover_dir disk
       /\ (exists r, run_blur tools (path_join INPUT_COVER c)
                       (path_join OUTPUT_TEMP ("cover_9x16_" +:+ stem c +:+ ".jpg"))
                     = inr r /\ rr_returncode r = 0)
       /\ (exists r, run_video tools
                       (path_join OUTPUT_TEMP ("cover_9x16_" +:+ stem c +:+ ".jpg"))
                       (path_join INPUT_AUDIO audio_file)
                       (path_join OUTPUT_FINAL (stem audio_file +:+ "_video.mp4"))
                     = inr r /\ rr_returncode r = 0)
       /\ (exists out d, run_probe tools (path_join INPUT_AUDIO audio_file) = inr out
                         /\ py_float (PyStr.strip out) = Some d).
Proof.
  unfold process_podcast, process_cover_blur, create_video_with_waveform,
    get_audio_duration, run_ok, and_then.
  split.
  - destruct (present audio_file (audio_dir disk)) eqn:Ha; [| discriminate].
    simpl. destruct (select_cover disk audio_file cover_file) as [c|]; [| discriminate].
    destruct (present c (cover_dir disk)) eqn:Hc; [| discriminate]. simpl.
    destruct (run_blur tools _ _) as [e|r1] eqn:Hb; [discriminate |].
    destruct (rr_returncode r1 =? 0) eqn:Hr1; simpl;
      [| destruct (rr_stderr r1); discriminate].
    destruct (run_video tools _ _ _) as [e|r2] eqn:Hv; [discriminate |].
    destruct (rr_returncode r2 =? 0) eqn:Hr2; simpl;
      [| destruct (rr_stderr r2); discriminate].
    destruct (run_probe tools _) as [e|out] eqn:Hp; [discriminate |].
    destruct (py_float (PyStr.strip out)) as [d|] eqn:Hd; [| discriminate].
    intros _. split; [apply present_spec, Ha |]. exists c.
    split; [reflexivity |]. split; [apply present_spec, Hc |].
    split; [exists r1; split; [first [exact Hb | reflexivity] | apply Z.eqb_eq, Hr1] |].
    split; [exists r2; split; [first [exact Hv | reflexivity] | apply Z.eqb_eq, Hr2] |].
    exists out, d. split; [first [exact Hp | reflexivity] | exact Hd].
  - intros [Ha [c [Hs [Hc [[r1 [Hb Hr1]] [[r2 [Hv Hr2]] [out [d [Hp Hd]]]]]]]]].
    rewrite (proj2 (present_spec _ _) Ha), Hs, (proj2 (present_spec _ _) Hc). simpl.
    rewrite Hb, (proj2 (Z.eqb_eq _ _) Hr1). simpl.
    rewrite Hv, (proj2 (Z.eqb_eq _ _) Hr2). simpl.
    rewrite Hp, Hd. reflexivity.
Qed.

(** X14. When the audio entry is missing, when no cover can be chosen, or
    when the given cover is not in the cover folder, [process_podcast]
    returns False whatever the subprocesses would answer: none is run. *)
Theorem process_podcast_refuses (disk : Disk) (tools : Tools)
    (audio_file : string) (cover_file : option string) :
  audio_file ∉ audio_dir disk
  \/ select_cover disk audio_file cover_file = None
  \/ (exists c, cover_file = Some c /\ c ∉ cover_dir disk) ->
  process_podcast py_float disk tools audio_file cover_file = inr false.
Proof.
  unfold process_podcast. intros H.
  destruct (present audio_file (audio_dir disk)) eqn:Ha; [| reflexivity]. simpl.
  destruct H as [H | [H | [c [-> H]]]].
  - exfalso. apply H, present_spec, Ha.
  - rewrite H. reflexivity.
  - simpl. destruct (present c (cover_dir disk)) eqn:Hc; [| reflexivity].
    exfalso. apply H, present_spec, Hc.
Qed.

(** X15. When both ffmpeg passes succeeded and what ffprobe printed is no
    number, [process_podcast] does not return: the conversion raises
    ValueError, although the video was produced. *)
Theorem process_podcast_duration_raises (disk : Disk) (tools : Tools)
    (audio_file : string) (cover_file : option string) (c out : string)
    (r1 r2 : RunResult) :
  audio_file ∈ audio_dir disk ->
  select_cover disk audio_file cover_file = Some c ->
  c ∈ cover_dir disk ->
  run_blur tools (path_join INPUT_COVER c)
    (path_join OUTPUT_TEMP ("cover_9x16_" +:+ stem c +:+ ".jpg")) = inr r1 ->
  rr_returncode r1 = 0 ->
  run_video tools (path_join OUTPUT_TEMP ("cover_9x16_" +:+ stem c +:+ ".jpg"))
    (path_join INPUT_AUDIO audio_file)
    (path_join OUTPUT_FINAL (stem audio_file +:+ "_video.mp4")) = inr r2 ->
  rr_returncode r2 = 0 ->
  run_probe tools (path_join INPUT_AUDIO audio_file) = inr out ->
  py_float (PyStr.strip out) = None ->
  exists msg,
    process_podcast py_float disk tools audio_file cover_file = inl (ValueError msg).
Proof.
  intros Ha Hs Hc Hb Hr1 Hv Hr2 Hp Hd.
  unfold process_podcast, process_cover_blur, create_video_with_waveform,
    get_audio_duration, run_ok, and_then.
  rewrite (proj2 (present_spec _ _) Ha), Hs, (proj2 (present_spec _ _) Hc). simpl.
  rewrite Hb, (proj2 (Z.eqb_eq _ _) Hr1). simpl.
  rewrite Hv, (proj2 (Z.eqb_eq _ _) Hr2). simpl.
  rewrite Hp, Hd. eexists. reflexivity.
Qed.

(** The audio files [batch_process] works on. *)
Lemma batch_loop_count disk tools files : forall success n,
  batch_loop py_float disk tools files success = inr n ->
  (success <= n <= success + length files)%nat.
Proof.
  induction files as [|f files IH]; intros success n H; simpl in H.
  - injection H as <-. simpl. lia.
  - unfold and_then in H.
    destruct (process_podcast py_float disk tools f None) as [e|ok]; [discriminate |].
    apply IH in H. simpl. destruct ok; lia.
Qed.

(** X16. [batch_process] reports no audio exactly when no entry of the
    audio folder ends in .mp3, .wav or .m4a; otherwise, when no file
    raises, it reports a number of successes that is at most the number of
    files it picked, and that number is the count of the entries ending in
    .mp3, then .wav, then .m4a. *)
Theorem batch_process_report (disk : Disk) (tools : Tools) :
  let picked := glob ".mp3" (audio_dir disk) ++ glob ".wav" (audio_dir disk)
                ++ glob ".m4a" (audio_dir disk) in
  (batch_process py_float disk tools = inr NoAudio <->
   forall name, name ∈ audio_dir disk ->
     endswith ".mp3" name = false /\ endswith ".wav" name = false
     /\ endswith ".m4a" name = false)
  /\ (forall success total,
        batch_process py_float disk tools = inr (Processed success total) ->
        total = length picked /\ (success <= total)%nat).
Proof.
  intros picked. unfold batch_process. fold picked. split.
  - split.
    + intros H. destruct picked as [|x l] eqn:E.
      * subst picked. apply app_eq_nil in E as [E1 E]. apply app_eq_nil in E as [E2 E3].
        intros name Hin. repeat split; eapply glob_nil; eassumption.
      * unfold and_then in H. destruct (batch_loop _ _ _ _ _); discriminate.
    + intros H. assert (E : picked = []).
      { subst picked.
        rewrite (proj2 (glob_nil ".mp3" _)), (proj2 (glob_nil ".wav" _)),
          (proj2 (glob_nil ".m4a" _)); [reflexivity | | |];
          intros n Hn; apply (H n Hn). }
      rewrite E. reflexivity.
  - intros success total H. destruct picked as [|x l] eqn:E; [discriminate |].
    unfold and_then in H.
    destruct (batch_loop py_float disk tools (x :: l) 0) as [e|n] eqn:Hl; [discriminate |].
    injection H as <- <-. split; [reflexivity |].
    apply batch_loop_count in Hl. simpl in *. lia.
Qed.

Lemma batch_loop_abort disk tools before file after e : forall success,
  Forall (fun f => exists ok, process_podcast py_float disk tools f None = inr ok) before ->
  process_podcast py_float disk tools file None = inl e ->
  batch_loop py_float disk tools (before ++ file :: after) success = inl e.
Proof.
  induction before as [|f before IH]; intros success Hb He; simpl.
  - rewrite He. reflexivity.
  - apply Forall_cons in Hb as [[ok Hok] Hb]. rewrite Hok. simpl. apply IH; assumption.
Qed.

(** X17. An exception raised for one audio file ends the whole batch: when
    the files picked before it return and it raises, [batch_process] raises
    that exception, whatever files come after it. *)
Theorem batch_process_aborts (disk : Disk) (tools : Tools)
    (before after : list string) (file : string) (e : py_exception) :
  glob ".mp3" (audio_dir disk) ++ glob ".wav" (audio_dir disk)
  ++ glob ".m4a" (audio_dir disk) = before ++ file :: after ->
  Forall (fun f => exists ok, process_podcast py_float disk tools f None = inr ok) before ->
  process_podcast py_float disk tools file None = inl e ->
  batch_process py_float disk tools = inl e.
Proof.
  intros Hpick Hb He. unfold batch_process. rewrite Hpick.
  pose proof (batch_loop_abort disk tools before file after e 0%nat Hb He) as Hl.
  destruct (before ++ file :: after) as [|x l] eqn:E.
  - destruct before; discriminate.
  - unfold and_then. rewrite Hl. reflexivity.
Qed.

End BatchFacts.

(** X18. Every audio file the batch tool picks passes the audio check of
    the web service: a name ending in .mp3, .wav or .m4a is allowed by
    [allowed_audio]. *)
Theorem batch_files_allowed (disk : Disk) (name : string) :
  name ∈ (glob ".mp3" (audio_dir disk) ++ glob ".wav" (audio_dir disk)
          ++ glob ".m4a" (audio_dir disk)) ->
  allowed_audio name = true.
Proof.
  intros H.
  assert (Hext : exists front ext, name = front +:+ "." +:+ ext
                   /\ (ext = "mp3" \/ ext = "wav" \/ ext = "m4a")).
  { rewrite !elem_of_app in H.
    destruct H as [H | [H | H]]; apply glob_spec in H as [_ H];
      apply endswith_spec in H as [front ->]; exists front; eexists;
      (split; [reflexivity |]); auto. }
  destruct Hext as [front [ext [-> Hext]]].
  apply allowed_audio_spec. exists front, ext. split; [reflexivity |].
  destruct Hext as [-> | [-> | ->]]; (split; [reflexivity |]);
    unfold ALLOWED_AUDIO; simpl; set_solver.
Qed.

End CliFacts.

(** ** The window before the output file is recorded *)

Lemma loop_final_bound duration task_id lines : forall s t,
  s !! task_id = Some t ->
  progress t <= 90 ->
  exists p, p <= 90
    /\ final (for_each lines (on_line duration task_id) s)
       = <[task_id := set_progress p t]> s.
Proof.
  induction lines as [|l lines IH]; intros s t Hs Hp.
  - simpl. exists (progress t). split; [exact Hp |].
    symmetry. apply insert_id. rewrite Hs. destruct t; reflexivity.
  - simpl. unfold bind. rewrite on_line_eq.
    destruct (event_time l) as [tm|]; [destruct (gt0 duration) |].
    + rewrite Hs. simpl.
      destruct (IH (<[task_id := set_progress (progress_of tm duration) t]> s)
                  (set_progress (progress_of tm duration) t)) as [p [Hle Hfin]];
        [apply lookup_insert_eq | apply progress_of_upper |].
      exists p. split; [exact Hle |]. rewrite Hfin, insert_insert_eq. reflexivity.
    + simpl. exact (IH s t Hs Hp).
    + simpl. exact (IH s t Hs Hp).
Qed.

(** X19. The status completed is written before the progress 100 and the
    output file: in a run that ends with exit code 0 from a record without
    output file, the job writes a registry in which the task is completed
    with a progress of at most 90 and no output file, and a download
    handled on that registry raises instead of answering. *)
Theorem completed_before_output_file (py_float : string -> option Q) (env : Env)
    (cover_path audio_path output_path task_id : string)
    (s : gmap string Task) (t : Task) (process : Process) (out : string) :
  s !! task_id = Some t ->
  output_file t = None ->
  popen env = inr process ->
  ffprobe_run env = inr out ->
  stdout_error process = None ->
  returncode process = 0 ->
  exists s' p,
    s' ∈ writes (create_video_with_waveform py_float env
                   cover_path audio_path output_path task_id s)
    /\ s' !! task_id = Some (mkTask completed p None (error t))
    /\ p <= 90
    /\ forall disk started,
         exists e, download_video task_id (mkWorld s' disk started) = Uncaught e.
Proof.
  intros Hs Hout Hp Hf Herr Hrc.
  rewrite (create_video_run _ _ _ _ _ _ _ _ Hs). simpl.
  rewrite (drive_process_run _ _ _ _ _ _ _ Hp Hf).
  set (duration := match py_float (PyStr.strip out) with
                   | Some d => d | None => 0%Q end).
  set (t20 := set_progress 20 (set_status processing t)).
  set (s20 := <[task_id := t20]> s).
  assert (H20 : s20 !! task_id = Some t20) by apply lookup_insert_eq.
  destruct (loop_final_bound duration task_id (stdout_lines process) s20 t20 H20)
    as [p [Hle Hfin]]; [simpl; lia |].
  destruct (loop_final duration task_id (stdout_lines process) s20 t20 H20) as [Hr _].
  set (loop := for_each (stdout_lines process) (on_line duration task_id)) in *.
  assert (Hread : (loop ;; ret tt) s20
                  = mkOutcome (writes (loop s20)) (final (loop s20)) (inr tt)).
  { rewrite (bind_inr _ _ _ _ Hr). unfold ret. simpl.
    rewrite app_nil_r. reflexivity. }
  assert (Hpres : final (loop s20) !! task_id = Some (set_progress p t20)).
  { rewrite Hfin. apply lookup_insert_eq. }
  unfold read_progress. rewrite Herr. fold loop.
  rewrite (bind_inr _ _ s20 tt) by (rewrite Hread; reflexivity).
  rewrite Hread. simpl.
  rewrite (finalize_success _ _ _ _ _ Hpres Hrc). simpl.
  exists (<[task_id := set_status completed (set_progress p t20)]> (final (loop s20))), p.
  split; [| split; [| split]].
  - do 3 apply list_elem_of_further. apply elem_of_app. right. constructor.
  - rewrite lookup_insert_eq. unfold set_status, set_progress, t20. simpl.
    rewrite Hout. reflexivity.
  - exact Hle.
  - intros disk started. unfold download_video. simpl.
    rewrite lookup_insert_eq. simpl. rewrite Hout. eexists. reflexivity.
Qed.


(** * The further properties on sample inputs *)

(** X1 on a registry shared with a finished task. *)
Lemma job_leaves_other_tasks_witness :
  "0badc0de" <> "12345678"
  /\ final (process_video_task float_plain steady_env "12345678"
              sample_audio_path DEFAULT_COVER sample_output_path shared_registry)
       !! "0badc0de" = shared_registry !! "0badc0de".
Proof.
  split; [discriminate |].
  destruct (job_leaves_other_tasks float_plain steady_env "12345678"
              sample_audio_path DEFAULT_COVER sample_output_path "0badc0de"
              shared_registry) as [_ H]; [discriminate | exact H].
Defined.

(** X2 on the steady run. *)
Lemma job_progress_at_most_100_witness :
  fresh_registry !! "12345678" = Some (mkTask queued 0 None None)
  /\ 0 <= 100
  /\ exists t',
       final (process_video_task float_plain steady_env "12345678"
                sample_audio_path DEFAULT_COVER sample_output_path fresh_registry)
         !! "12345678" = Some t'
       /\ progress t' <= 100.
Proof.
  split; [reflexivity |]. split; [lia |].
  destruct (job_progress_at_most_100 float_plain steady_env "12345678"
              sample_audio_path DEFAULT_COVER sample_output_path fresh_registry
              (mkTask queued 0 None None)) as [_ H];
    [reflexivity | simpl; lia | exact H].
Defined.

(** X3 on a run where ffmpeg cannot be started. *)
Lemma job_ends_terminal_witness :
  fresh_registry !! "12345678" = Some (mkTask queued 0 None None)
  /\ exists t',
       final (process_video_task float_plain broken_env "12345678"
                sample_audio_path DEFAULT_COVER sample_output_path fresh_registry)
         !! "12345678" = Some t'
       /\ (status t' = completed \/ status t' = failed).
Proof.
  split; [reflexivity |].
  destruct (job_ends_terminal float_plain broken_env "12345678"
              sample_audio_path DEFAULT_COVER sample_output_path fresh_registry
              (mkTask queued 0 None None)) as [t' [H1 [H2 _]]]; [reflexivity |].
  exists t'. split; assumption.
Defined.

Lemma first_submission_accepted :
  upload_files keep_name (sub_random first_submission)
    (sub_request first_submission) sample_world
  = (fst (upload_files keep_name (sub_random first_submission)
            (sub_request first_submission) sample_world),
     JsonAccepted "12345678" "开始处理").
Proof. vm_compute. reflexivity. Qed.


(** X8 on the first sample submission and the steady run. *)
Lemma submitted_video_downloadable_witness :
  popen steady_env = inr steady_process
  /\ returncode steady_process = 0
  /\ exists job,
       last (threads (fst (upload_files keep_name (sub_random first_submission)
                             (sub_request first_submission) sample_world)))
       = Some job
       /\ job_task_id job = "12345678".
Proof.
  split; [reflexivity |]. split; [reflexivity |].
  destruct (submitted_video_downloadable keep_name float_plain _ _ _ _ _ _
              steady_env steady_process (line "8.000000") sample_disk_files []
              first_submission_accepted eq_refl eq_refl eq_refl eq_refl)
    as [job [H1 [H2 _]]].
  exists job. split; assumption.
Defined.

(** X10 on an mp3 name. *)
Lemma audio_and_image_exclusive_witness :
  allowed_audio "a.mp3" = true /\ allowed_image "a.mp3" = false.
Proof.
  assert (H : allowed_audio "a.mp3" = true) by (vm_compute; reflexivity).
  split; [exact H | exact (audio_and_image_exclusive "a.mp3" H)].
Defined.

(** X14 on an audio name that is not in the folder. *)
Lemma process_podcast_refuses_witness :
  ("ep9.mp3" ∉ Cli.audio_dir sample_folders)
  /\ Cli.process_podcast float_plain sample_folders sample_tools "ep9.mp3" None
     = inr false.
Proof.
  assert (H : "ep9.mp3" ∉ Cli.audio_dir sample_folders).
  { intros H. apply CliFacts.present_spec in H. vm_compute in H. discriminate. }
  split; [exact H |].
  apply CliFacts.process_podcast_refuses. left. exact H.
Defined.

Lemma sample_cover_present : "cover.jpg" ∈ Cli.cover_dir sample_folders.
Proof. apply CliFacts.present_spec. vm_compute. reflexivity. Qed.

Lemma sample_episode_present : "ep2.mp3" ∈ Cli.audio_dir sample_folders.
Proof. apply CliFacts.present_spec. vm_compute. reflexivity. Qed.

(** X15 on the second episode, for which ffprobe prints no number. *)
Lemma process_podcast_duration_raises_witness :
  Cli.select_cover sample_folders "ep2.mp3" None = Some "cover.jpg"
  /\ float_plain (PyStr.strip (line "N/A")) = None
  /\ exists msg,
       Cli.process_podcast float_plain sample_folders sample_tools "ep2.mp3" None
       = inl (ValueError msg).
Proof.
  split; [vm_compute; reflexivity |]. split; [vm_compute; reflexivity |].
  apply (CliFacts.process_podcast_duration_raises float_plain sample_folders
           sample_tools "ep2.mp3" None "cover.jpg" (line "N/A")
           (Cli.mkRun 0 (inr "")) (Cli.mkRun 0 (inr ""))).
  - exact sample_episode_present.
  - vm_compute. reflexivity.
  - exact sample_cover_present.
  - reflexivity.
  - reflexivity.
  - reflexivity.
  - reflexivity.
  - vm_compute. reflexivity.
  - vm_compute. reflexivity.
Defined.

(** X17 on the sample folders: the second episode raises and the third is
    not processed. *)
Lemma batch_process_aborts_witness :
  Cli.process_podcast float_plain sample_folders sample_tools "ep1.mp3" None = inr true
  /\ Cli.batch_process float_plain sample_folders sample_tools
     = inl (ValueError "could not convert string to float").
Proof.
  assert (H1 : Cli.process_podcast float_plain sample_folders sample_tools
                 "ep1.mp3" None = inr true) by (vm_compute; reflexivity).
  split; [exact H1 |].
  apply (CliFacts.batch_process_aborts float_plain sample_folders sample_tools
           ["ep1.mp3"] ["ep3.mp3"] "ep2.mp3").
  - vm_compute. reflexivity.
  - constructor; [exists true; exact H1 | constructor].
  - vm_compute. reflexivity.
Defined.

(** X18 on the first episode. *)
Lemma batch_files_allowed_witness :
  "ep1.mp3" ∈ (Cli.glob ".mp3" (Cli.audio_dir sample_folders)
               ++ Cli.glob ".wav" (Cli.audio_dir sample_folders)
               ++ Cli.glob ".m4a" (Cli.audio_dir sample_folders))
  /\ allowed_audio "ep1.mp3" = true.
Proof.
  assert (H : "ep1.mp3" ∈ (Cli.glob ".mp3" (Cli.audio_dir sample_folders)
                           ++ Cli.glob ".wav" (Cli.audio_dir sample_folders)
                           ++ Cli.glob ".m4a" (Cli.audio_dir sample_folders))).
  { vm_compute. constructor. }
  split; [exact H | exact (CliFacts.batch_files_allowed sample_folders "ep1.mp3" H)].
Defined.

(** X19 on the steady run. *)
Lemma completed_before_output_file_witness :
  fresh_registry !! "12345678" = Some (mkTask queued 0 None None)
  /\ returncode steady_process = 0
  /\ exists s' p,
       s' ∈ writes (create_video_with_waveform float_plain steady_env DEFAULT_COVER
                      sample_audio_path sample_output_path "12345678" fresh_registry)
       /\ s' !! "12345678" = Some (mkTask completed p None None)
       /\ p <= 90.
Proof.
  split; [reflexivity |]. split; [reflexivity |].
  destruct (completed_before_output_file float_plain steady_env DEFAULT_COVER
              sample_audio_path sample_output_path "12345678" fresh_registry
              (mkTask queued 0 None None) steady_process (line "8.000000")
              eq_refl eq_refl eq_refl eq_refl eq_refl eq_refl)
    as [s' [p [H1 [H2 [H3 _]]]]].
  exists s', p. split; [exact H1 |]. split; [exact H2 | exact H3].
Defined.
